(** * Satellite orbit tracker: catalog loader, clock, selection, sampler, scanner

    A shallow embedding of [src/utils/celestrakLoader.js] and of the logic of
    the [GlobeViewer] component, with the properties its specification states.

    Conventions of the embedding.
    - An instant (a JS [Date], a Cesium [JulianDate]) is its Unix time in
      milliseconds, a [Z]; [JulianDate.toDate] and [JulianDate.fromDate] are
      the identity at that resolution.
    - A JS number that can be [NaN] is a [num]; finite values are exact
      rationals, so rounding of IEEE doubles is outside the model.
    - The propagation library (satellite.js) and the Cesium geometry are not
      part of the repository: they are the fields of the class [SatelliteJs].
    - A React handler is a function from the state it closes over to the state
      after its batched updates. *)

From Stdlib Require Import ZArith QArith Qabs Qround Bool List String Ascii Lia Lqa.
From Stdlib Require Import Sorting.Sorted Sorting.Permutation.
Import ListNotations.

Local Open Scope string_scope.
Local Open Scope Z_scope.

(* ================================================================== *)
(** * Part I. Definitions                                              *)
(* ================================================================== *)

(** ** Outcomes of fallible steps *)

(** What a [try] block or an awaited promise yields: a value, or a thrown
    error (a rejected promise). *)
Inductive outcome (A : Type) : Type :=
| Returned (a : A)
| Thrown.
Arguments Returned {A} a.
Arguments Thrown {A}.

Module Try.
Definition bind {A B} (m : outcome A) (k : A -> outcome B) : outcome B :=
  match m with
  | Returned a => k a
  | Thrown => Thrown
  end.

(** [try { m } catch { h }] *)
Definition catch {A} (m : outcome A) (h : outcome A) : outcome A :=
  match m with
  | Returned a => Returned a
  | Thrown => h
  end.
End Try.

Declare Scope try_scope.
Delimit Scope try_scope with try.
Notation "x <- m ;; k" := (Try.bind m (fun x => k))
  (at level 61, m at next level, right associativity) : try_scope.

(** ** JS numbers and strings *)

Inductive num : Type :=
| NaN
| Fin (q : Q).

(** [a < b] and [a > b] on JS numbers: false as soon as one side is [NaN]. *)
Definition num_ltb (a b : num) : bool :=
  match a, b with
  | Fin x, Fin y => negb (Qle_bool y x)
  | _, _ => false
  end.

Definition num_gtb (a b : num) : bool := num_ltb b a.

Definition Qltb (x y : Q) : bool := negb (Qle_bool y x).

Module JsString.
(** [String.prototype.trim] on ASCII text: space, TAB, LF, VT, FF and CR. *)
Definition isWhite (c : ascii) : bool :=
  let n := nat_of_ascii c in
  ((n =? 32) || ((9 <=? n) && (n <=? 13)))%nat.

Fixpoint trimStart (s : string) : string :=
  match s with
  | EmptyString => EmptyString
  | String c r => if isWhite c then trimStart r else s
  end.

Fixpoint rev_append (s acc : string) : string :=
  match s with
  | EmptyString => acc
  | String c r => rev_append r (String c acc)
  end.

Definition rev (s : string) : string := rev_append s EmptyString.

Definition trim (s : string) : string := rev (trimStart (rev (trimStart s))).

(** [s.split(sep)] for a one-character separator. *)
Fixpoint split (sep : ascii) (s : string) : list string :=
  match s with
  | EmptyString => [EmptyString]
  | String c r =>
      if Ascii.eqb c sep then EmptyString :: split sep r
      else match split sep r with
           | h :: t => String c h :: t
           | [] => [String c EmptyString]
           end
  end.

Definition isEmpty (s : string) : bool :=
  match s with EmptyString => true | String _ _ => false end.

(** [String.prototype.toUpperCase] on ASCII letters. *)
Definition upper (c : ascii) : ascii :=
  let n := nat_of_ascii c in
  if ((97 <=? n) && (n <=? 122))%nat then ascii_of_nat (n - 32) else c.

Fixpoint toUpperCase (s : string) : string :=
  match s with
  | EmptyString => EmptyString
  | String c r => String (upper c) (toUpperCase r)
  end.

(** [s.includes(q)] *)
Fixpoint includes (s q : string) : bool :=
  String.prefix q s
  || match s with
     | EmptyString => false
     | String _ r => includes r q
     end.
End JsString.

(** ** The catalog loader, [celestrakLoader.js] *)

Record Sat : Type := mkSat {
  id : nat;
  name : string;
  line1 : string;
  line2 : string
}.

Definition newline : ascii := ascii_of_nat 10.

Module Loader.
Import JsString.

(** The body of the [for (let i = 0; i < lines.length; i += 3)] loop of
    [parseTLE]; [lines[k]] out of range is [undefined], which is falsy, and
    every line kept by the filter is a non-empty string, which is truthy. *)
Fixpoint parseLoop (fuel : nat) (lines : list string) (i : nat) : list Sat :=
  match fuel with
  | O => []
  | S fuel' =>
      if (i <? List.length lines)%nat then
        match nth_error lines i, nth_error lines (i + 1), nth_error lines (i + 2) with
        | Some n, Some l1, Some l2 =>
            if negb (isEmpty n) && negb (isEmpty l1) && negb (isEmpty l2)
            then mkSat i n l1 l2 :: parseLoop fuel' lines (i + 3)
            else parseLoop fuel' lines (i + 3)
        | _, _, _ => parseLoop fuel' lines (i + 3)
        end
      else []
  end.

Definition normalize (tleData : string) : list string :=
  filter (fun line => negb (isEmpty line)) (map trim (split newline tleData)).

Definition parseTLE (tleData : string) : list Sat :=
  let lines := normalize tleData in
  parseLoop (List.length lines) lines 0.

Definition BACKUP_TLE : string :=
  String.concat (String newline EmptyString)
    [ "";
      "ISS (ZARYA)";
      "1 25544U 98067A   24036.56038380  .00014798  00000-0  26998-3 0  9993";
      "2 25544  51.6401 195.9620 0004567 114.7672 344.9754 15.49651543437637";
      "" ].

(** What [fetch(DATA_URL)] gave: the response's [ok] flag and the outcome of
    awaiting [response.text()]. *)
Record Response : Type := mkResponse {
  ok : bool;
  text : outcome string
}.

(** The TLE text, when the fetch resolved, the response is [ok] and its
    body could be read; [None] is the blob being unavailable or unreadable. *)
Definition blobOf (fetched : outcome Response) : option string :=
  match fetched with
  | Returned response =>
      if ok response
      then match text response with
           | Returned body => Some body
           | Thrown => None
           end
      else None
  | Thrown => None
  end.

(** The one record of the built-in catalog. *)
Definition issRecord : Sat :=
  mkSat 0 "ISS (ZARYA)"
    "1 25544U 98067A   24036.56038380  .00014798  00000-0  26998-3 0  9993"
    "2 25544  51.6401 195.9620 0004567 114.7672 344.9754 15.49651543437637".

Local Open Scope try_scope.

Definition fetchSatellites (fetched : outcome Response) : outcome (list Sat) :=
  Try.catch
    (response <- fetched ;;
     if negb (ok response) then Thrown
     else (body <- text response ;; Returned (parseTLE body)))
    (Returned (parseTLE BACKUP_TLE)).
End Loader.

(** ** The propagation library and the Cesium geometry *)

(** What the component consumes from satellite.js and Cesium.  A call that can
    throw has an [outcome]. *)
Class SatelliteJs : Type := {
  (** the propagation record built from two element lines *)
  Satrec : Type;
  (** an ECI vector: [pv.position] (km) or [pv.velocity] (km/s) *)
  Eci : Type;
  (** the result of [satellite.eciToGeodetic] *)
  Geodetic : Type;
  (** a Cesium [Cartesian3], in metres *)
  Cartesian3 : Type;
  twoline2satrec : string -> string -> outcome Satrec;
  (** The instant of [satrec.jdsatepoch], that is
      [(jdsatepoch - 2440587.5) * 86400 * 1000], at the millisecond resolution
      of a [Date]; [None] when [jdsatepoch] is missing, zero or not a number
      (the cases [!satrec?.jdsatepoch] and the [Number.isFinite] test reject). *)
  epochMs : Satrec -> option Z;
  (** [satellite.propagate(satrec, t)]: a pair of [position] and [velocity],
      each of which may be [false]/[undefined] *)
  propagate : Satrec -> Z -> outcome (option Eci * option Eci);
  (** [isNaN(v.x)] *)
  xIsNaN : Eci -> bool;
  (** [Math.sqrt(v.x ** 2 + v.y ** 2 + v.z ** 2)] *)
  magnitude : Eci -> num;
  (** [satellite.eciToGeodetic(position, satellite.gstime(t))] *)
  eciToGeodetic : Eci -> Z -> outcome Geodetic;
  (** [posGd.height], km *)
  height : Geodetic -> num;
  (** [satellite.degreesLat(posGd.latitude)], [satellite.degreesLong(posGd.longitude)] *)
  degreesLatLong : Geodetic -> outcome (num * num);
  (** [Cartesian3.fromRadians(posGd.longitude, posGd.latitude, posGd.height * 1000)] *)
  fromRadians : Geodetic -> outcome Cartesian3;
  (** [Cartesian3.distance], metres *)
  distance : Cartesian3 -> Cartesian3 -> num
}.

Definition MAX_FUTURE_DAYS : Z := 30.
Definition dayMs : Z := 24 * 60 * 60 * 1000.
Definition minuteMs : Z := 60000.

Inductive TleAgeLabel : Type := FRESH | OK | OLD | VERY_OLD.

(** The digits of [x.toFixed(digits)] as an integer: [x * 10^digits] rounded
    to the nearest integer, a tie going away from zero. *)
Definition toFixedZ (digits : nat) (q : Q) : Z :=
  let scaled := (Qabs q * inject_Z (10 ^ Z.of_nat digits))%Q in
  let n := Qfloor (scaled + (1 # 2))%Q in
  if Qle_bool 0 q then n else - n.

(** [Number(x.toFixed(digits))] *)
Definition toFixed (digits : nat) (x : num) : num :=
  match x with
  | NaN => NaN
  | Fin q => Fin (inject_Z (toFixedZ digits q) / inject_Z (10 ^ Z.of_nat digits))%Q
  end.

(** [tleAgeDays < 3 ? "FRESH" : tleAgeDays < 14 ? "OK" :
     tleAgeDays < 30 ? "OLD" : "VERY OLD"] *)
Definition tleAgeLabelOf (tleAgeDays : num) : TleAgeLabel :=
  if num_ltb tleAgeDays (Fin 3) then FRESH
  else if num_ltb tleAgeDays (Fin 14) then OK
  else if num_ltb tleAgeDays (Fin 30) then OLD
  else VERY_OLD.

(** [for (let i = lo; i <= hi; i += step)] with constant bounds: the values
    [i] takes, in order. *)
Definition forRange (lo hi step : Z) : list Z :=
  map (fun k => lo + step * Z.of_nat k) (seq 0 (Z.to_nat ((hi - lo) / step + 1))).

(** [st |> f |> g]: the updates of a handler, in the order the source makes them. *)
Notation "s |> f" := (f s) (at level 45, left associativity, only parsing).

Section Model.
Context {lib : SatelliteJs}.

(** *** Records of the component *)

(** The samples of a [SampledPositionProperty], in the order of the
    [addSample] calls. *)
Definition Path : Type := list (Z * Cartesian3).

Record Clock : Type := mkClock {
  currentTime : Z;
  clockMultiplier : Q;
  shouldAnimate : bool
}.

Inductive EntityId : Type := SelectedSatComplex | SelectedSatSimple.

Record Viewer : Type := mkViewer {
  clock : Clock;
  trackedEntity : option EntityId
}.

(** The payload of [onSatelliteSelect]; velocity, period and designator are
    presentation only and left out. *)
Record SatData : Type := mkSatData {
  dataName : string;
  satId : nat;
  (** height (km), latitude and longitude (degrees), when [pv.position] is there *)
  geodetic : option (num * num * num);
  tleAgeDays : num;
  tleAgeLabel : TleAgeLabel
}.

Record GroundTarget : Type := mkGroundTarget {
  position : Cartesian3;
  targetName : string
}.

(** An entry of [found] in the scanner. *)
Record Found : Type := mkFound {
  foundName : string;
  foundId : nat;
  distanceKm : Q
}.

(** An entry of the [intercepts] state; [interceptKm] is the integer that
    [distanceKm.toFixed(0)] prints before the suffix [" KM"]. *)
Record Intercept : Type := mkIntercept {
  interceptName : string;
  interceptId : nat;
  interceptKm : Z
}.

Record Filters : Type := mkFilters {
  searchTerm : string;
  showAdvFilters : bool;
  filterAlt : Q * Q;
  filterVel : Q * Q
}.

(** The [useState] cells and refs of [GlobeViewer], the Cesium viewer it
    holds, and the [selectedSatData] cell of [App] that [onSatelliteSelect]
    writes.  [filterMemoTime] is the [new Date()] read when the
    [filteredSatellites] memo was last computed. *)
Record State : Type := mkState {
  satellites : list Sat;
  selectedSat : option Sat;
  selectedSatPath : option Path;
  selectedSatPathRef : option Path;
  isTracked : bool;
  isTleOutOfRange : bool;
  tleWarning : string;
  selectedSatData : option SatData;
  viewer : option Viewer;
  filters : Filters;
  filterMemoTime : Z;
  groundTarget : option GroundTarget;
  intercepts : list Intercept;
  scanRadius : Q;
  lastTickTime : Z;
  lastScannerCheck : Z;
  isPaused : bool;
  multiplier : Q
}.

(** *** Field updates *)

Definition set_satellites v (s : State) : State :=
  let 'mkState _ a2 a3 a4 a5 a6 a7 a8 a9 a10 a11 a12 a13 a14 a15 a16 a17 a18 := s in
  mkState v a2 a3 a4 a5 a6 a7 a8 a9 a10 a11 a12 a13 a14 a15 a16 a17 a18.
Definition set_selectedSat v (s : State) : State :=
  let 'mkState a1 _ a3 a4 a5 a6 a7 a8 a9 a10 a11 a12 a13 a14 a15 a16 a17 a18 := s in
  mkState a1 v a3 a4 a5 a6 a7 a8 a9 a10 a11 a12 a13 a14 a15 a16 a17 a18.
Definition set_selectedSatPath v (s : State) : State :=
  let 'mkState a1 a2 _ a4 a5 a6 a7 a8 a9 a10 a11 a12 a13 a14 a15 a16 a17 a18 := s in
  mkState a1 a2 v a4 a5 a6 a7 a8 a9 a10 a11 a12 a13 a14 a15 a16 a17 a18.
Definition set_selectedSatPathRef v (s : State) : State :=
  let 'mkState a1 a2 a3 _ a5 a6 a7 a8 a9 a10 a11 a12 a13 a14 a15 a16 a17 a18 := s in
  mkState a1 a2 a3 v a5 a6 a7 a8 a9 a10 a11 a12 a13 a14 a15 a16 a17 a18.
Definition set_isTracked v (s : State) : State :=
  let 'mkState a1 a2 a3 a4 _ a6 a7 a8 a9 a10 a11 a12 a13 a14 a15 a16 a17 a18 := s in
  mkState a1 a2 a3 a4 v a6 a7 a8 a9 a10 a11 a12 a13 a14 a15 a16 a17 a18.
Definition set_isTleOutOfRange v (s : State) : State :=
  let 'mkState a1 a2 a3 a4 a5 _ a7 a8 a9 a10 a11 a12 a13 a14 a15 a16 a17 a18 := s in
  mkState a1 a2 a3 a4 a5 v a7 a8 a9 a10 a11 a12 a13 a14 a15 a16 a17 a18.
Definition set_tleWarning v (s : State) : State :=
  let 'mkState a1 a2 a3 a4 a5 a6 _ a8 a9 a10 a11 a12 a13 a14 a15 a16 a17 a18 := s in
  mkState a1 a2 a3 a4 a5 a6 v a8 a9 a10 a11 a12 a13 a14 a15 a16 a17 a18.
Definition set_selectedSatData v (s : State) : State :=
  let 'mkState a1 a2 a3 a4 a5 a6 a7 _ a9 a10 a11 a12 a13 a14 a15 a16 a17 a18 := s in
  mkState a1 a2 a3 a4 a5 a6 a7 v a9 a10 a11 a12 a13 a14 a15 a16 a17 a18.
Definition set_viewer v (s : State) : State :=
  let 'mkState a1 a2 a3 a4 a5 a6 a7 a8 _ a10 a11 a12 a13 a14 a15 a16 a17 a18 := s in
  mkState a1 a2 a3 a4 a5 a6 a7 a8 v a10 a11 a12 a13 a14 a15 a16 a17 a18.
Definition set_filters v t (s : State) : State :=
  let 'mkState a1 a2 a3 a4 a5 a6 a7 a8 a9 _ _ a12 a13 a14 a15 a16 a17 a18 := s in
  mkState a1 a2 a3 a4 a5 a6 a7 a8 a9 v t a12 a13 a14 a15 a16 a17 a18.
Definition set_groundTarget v (s : State) : State :=
  let 'mkState a1 a2 a3 a4 a5 a6 a7 a8 a9 a10 a11 _ a13 a14 a15 a16 a17 a18 := s in
  mkState a1 a2 a3 a4 a5 a6 a7 a8 a9 a10 a11 v a13 a14 a15 a16 a17 a18.
Definition set_intercepts v (s : State) : State :=
  let 'mkState a1 a2 a3 a4 a5 a6 a7 a8 a9 a10 a11 a12 _ a14 a15 a16 a17 a18 := s in
  mkState a1 a2 a3 a4 a5 a6 a7 a8 a9 a10 a11 a12 v a14 a15 a16 a17 a18.
Definition set_scanRadius v (s : State) : State :=
  let 'mkState a1 a2 a3 a4 a5 a6 a7 a8 a9 a10 a11 a12 a13 _ a15 a16 a17 a18 := s in
  mkState a1 a2 a3 a4 a5 a6 a7 a8 a9 a10 a11 a12 a13 v a15 a16 a17 a18.
Definition set_lastTickTime v (s : State) : State :=
  let 'mkState a1 a2 a3 a4 a5 a6 a7 a8 a9 a10 a11 a12 a13 a14 _ a16 a17 a18 := s in
  mkState a1 a2 a3 a4 a5 a6 a7 a8 a9 a10 a11 a12 a13 a14 v a16 a17 a18.
Definition set_lastScannerCheck v (s : State) : State :=
  let 'mkState a1 a2 a3 a4 a5 a6 a7 a8 a9 a10 a11 a12 a13 a14 a15 _ a17 a18 := s in
  mkState a1 a2 a3 a4 a5 a6 a7 a8 a9 a10 a11 a12 a13 a14 a15 v a17 a18.
Definition set_isPaused v (s : State) : State :=
  let 'mkState a1 a2 a3 a4 a5 a6 a7 a8 a9 a10 a11 a12 a13 a14 a15 a16 _ a18 := s in
  mkState a1 a2 a3 a4 a5 a6 a7 a8 a9 a10 a11 a12 a13 a14 a15 a16 v a18.
Definition set_multiplier v (s : State) : State :=
  let 'mkState a1 a2 a3 a4 a5 a6 a7 a8 a9 a10 a11 a12 a13 a14 a15 a16 a17 _ := s in
  mkState a1 a2 a3 a4 a5 a6 a7 a8 a9 a10 a11 a12 a13 a14 a15 a16 a17 v.

(** [if (viewer) viewer.<field> = ...]: an update of the viewer, when there is one. *)
Definition with_viewer (f : Viewer -> Viewer) (s : State) : State :=
  match viewer s with
  | Some v => set_viewer (Some (f v)) s
  | None => s
  end.

Definition set_clock (c : Clock) (v : Viewer) : Viewer := mkViewer c (trackedEntity v).
Definition set_trackedEntity (e : option EntityId) (v : Viewer) : Viewer := mkViewer (clock v) e.

(** *** Propagation records and the validity window *)

(** [getSatrec]: the cache in front of [twoline2satrec] only saves work, so
    the record is a function of the catalog entry.  [!sat?.id] is true for
    the identifier [0]. *)
Definition getSatrec (sat : Sat) : option Satrec :=
  if (id sat =? 0)%nat then None
  else match twoline2satrec (line1 sat) (line2 sat) with
       | Returned satrec => Some satrec
       | Thrown => None
       end.

Definition getTleEpochDate (sat : Sat) : option Z :=
  match getSatrec sat with
  | Some satrec => epochMs satrec
  | None => None
  end.

(** [isOutOfRange(jsDate, sat)]; its [!sat] guard is for a null argument,
    which the callers exclude before the call. *)
Definition isOutOfRange (jsDate : Z) (sat : Sat) : bool :=
  match getTleEpochDate sat with
  | None => false
  | Some epoch =>
      let max := epoch + MAX_FUTURE_DAYS * dayMs in
      max <? jsDate
  end.

(** *** Filtering (search and advanced filters) *)

Definition num_scale (k : Q) (x : num) : num :=
  match x with
  | NaN => NaN
  | Fin q => Fin (q * k)%Q
  end.

(** The predicate of [result.filter((sat) => ...)] under [showAdvFilters]. *)
Definition passesAdvanced (f : Filters) (now : Z) (sat : Sat) : bool :=
  match getSatrec sat with
  | None => false
  | Some satrec =>
      match propagate satrec now with
      | Returned (Some pos, Some vel) =>
          let vKmH := num_scale 3600 (magnitude vel) in
          if num_ltb vKmH (Fin (fst (filterVel f))) || num_gtb vKmH (Fin (snd (filterVel f)))
          then false
          else match eciToGeodetic pos now with
               | Returned posGd =>
                   if num_ltb (height posGd) (Fin (fst (filterAlt f)))
                      || num_gtb (height posGd) (Fin (snd (filterAlt f)))
                   then false
                   else true
               | Thrown => false
               end
      | _ => false
      end
  end.

Definition filteredSatellites (st : State) : list Sat :=
  let f := filters st in
  let q := JsString.trim (searchTerm f) in
  let result :=
    if JsString.isEmpty q then satellites st
    else filter (fun s => JsString.includes (JsString.toUpperCase (name s))
                                            (JsString.toUpperCase q))
                (satellites st) in
  if negb (showAdvFilters f) then result
  else filter (passesAdvanced f (filterMemoTime st)) result.

Definition isSelectionInFilter (st : State) : bool :=
  match selectedSat st with
  | None => false
  | Some sel => existsb (fun s => (id s =? id sel)%nat) (filteredSatellites st)
  end.

(** [setSelectedSat(null)] and what goes with it, as in the auto-deselect
    effect and in the background click. *)
Definition clearSelection (st : State) : State :=
  st |> set_selectedSat None
     |> set_selectedSatPath None
     |> set_selectedSatPathRef None
     |> set_isTracked false
     |> set_selectedSatData None
     |> with_viewer (set_trackedEntity None).

(** The effect on [filteredSatellites, selectedSat, onSatelliteSelect]. *)
Definition autoDeselect (st : State) : State :=
  match selectedSat st with
  | None => st
  | Some sel =>
      let stillVisible := existsb (fun s => (id s =? id sel)%nat) (filteredSatellites st) in
      if stillVisible then st else clearSelection st
  end.

(** *** The info panel *)

(** [tleAgeDays] of [updateInfoPanel]: [(now.getTime() - tleEpochMs) / (86400 * 1000)],
    [NaN] when the record has no usable epoch. *)
Definition tleAgeDaysAt (now : Z) (satrec : Satrec) : num :=
  match epochMs satrec with
  | Some tleEpochMs => Fin (inject_Z (now - tleEpochMs) / inject_Z dayMs)%Q
  | None => NaN
  end.

Local Open Scope try_scope.

(** The part of [updateInfoPanel] after the age: propagate, and convert the
    position when there is one. *)
Definition locate (satrec : Satrec) (now : Z) : outcome (option (num * num * num)) :=
  pv <- propagate satrec now ;;
  match fst pv with
  | Some pos =>
      posGd <- eciToGeodetic pos now ;;
      degrees <- degreesLatLong posGd ;;
      Returned (Some (height posGd, fst degrees, snd degrees))
  | None => Returned None
  end.

Definition updateInfoPanel (sat : Sat) (st : State) : State :=
  match viewer st with
  | None => st
  | Some v =>
      match getSatrec sat with
      | None => st
      | Some satrec =>
          let now := currentTime (clock v) in
          let age := tleAgeDaysAt now satrec in
          let label := tleAgeLabelOf age in
          match locate satrec now with
          | Returned geo =>
              set_selectedSatData
                (Some (mkSatData (name sat) (id sat) geo (toFixed 2 age) label)) st
          | Thrown => st
          end
      end
  end.

(** *** Orbit sampling *)

(** One sample: propagate, reject a missing or [NaN] position, convert to a
    [Cartesian3]; [None] is a skipped step ([continue], or the [catch]). *)
Definition positionAt (satrec : Satrec) (t : Z) : option Cartesian3 :=
  match propagate satrec t with
  | Returned (Some pos, _) =>
      if xIsNaN pos then None
      else match (posGd <- eciToGeodetic pos t ;; fromRadians posGd) with
           | Returned cart => Some cart
           | Thrown => None
           end
  | _ => None
  end.

(** The loop of [calculatePreciseMovement]: [i] from -240 to 240 by 2. *)
Definition historySamples (satrec : Satrec) (baseDate : Z) : Path :=
  flat_map (fun i =>
              let t := baseDate + i * minuteMs in
              match positionAt satrec t with
              | Some cart => [(t, cart)]
              | None => []
              end)
           (forRange (-240) 240 2).

Definition calculatePreciseMovement (sat : Sat) (st : State) : State :=
  match viewer st with
  | None => st
  | Some v =>
      match getSatrec sat with
      | None => st
      | Some satrec =>
          let property := historySamples satrec (currentTime (clock v)) in
          st |> set_selectedSatPathRef (Some property)
             |> set_selectedSatPath (Some property)
      end
  end.

(** The callback of [getDynamicFuturePath]: [i] from 0 to 90 by 1. *)
Definition futurePositions (satrec : Satrec) (startDate : Z) : list Cartesian3 :=
  flat_map (fun i =>
              match positionAt satrec (startDate + i * minuteMs) with
              | Some cart => [cart]
              | None => []
              end)
           (forRange 0 90 1).

Definition getDynamicFuturePath (sat : Sat) : option (Z -> list Cartesian3) :=
  option_map futurePositions (getSatrec sat).

(** [getSimpleCallback]: the position of a plain marker. *)
Definition getSimpleCallback (sat : Sat) : option (Z -> option Cartesian3) :=
  option_map positionAt (getSatrec sat).

(** *** Selection *)

Definition outOfRangeWarning : string :=
  "TLE out of range (+30 days). Orbit path disabled; data may be inaccurate.".

(** [if (tleWarning) setTleWarning("")], with the [tleWarning] the handler closed over. *)
Definition clearWarning (closedOver : State) (st : State) : State :=
  if JsString.isEmpty (tleWarning closedOver) then st else set_tleWarning "" st.

Definition dropPath (st : State) : State :=
  st |> set_selectedSatPath None |> set_selectedSatPathRef None.

(** [selectSatelliteById(satId)]; [wallNow] is the [new Date()] used when
    there is no viewer. *)
Definition selectSatelliteById (satId : nat) (wallNow : Z) (st : State) : State :=
  match find (fun s => (id s =? satId)%nat) (satellites st) with
  | None => st
  | Some sat =>
      let jsDate :=
        match viewer st with
        | Some v => currentTime (clock v)
        | None => wallNow
        end in
      let out := isOutOfRange jsDate sat in
      st |> set_selectedSat (Some sat)
         |> set_isTleOutOfRange out
         |> (if out
             then fun s => s |> dropPath |> set_tleWarning outOfRangeWarning
             else fun s => s |> calculatePreciseMovement sat |> clearWarning st)
         |> updateInfoPanel sat
         |> with_viewer (set_trackedEntity None)
  end.

(** *** What is drawn for the selection *)

Inductive SelectedEntities : Type :=
| NothingDrawn
(** ["selected-sat-complex"]: the sampled path, with the dashed future
    polyline of [getDynamicFuturePath] *)
| ComplexEntity (path : Path) (future : option (Z -> list Cartesian3))
(** ["selected-sat-simple"]: a point at [getSimpleCallback] *)
| SimpleEntity (marker : option (Z -> option Cartesian3)).

Definition renderSelected (st : State) : SelectedEntities :=
  match selectedSat st with
  | None => NothingDrawn
  | Some sel =>
      if negb (isSelectionInFilter st) then NothingDrawn
      else if isTleOutOfRange st then SimpleEntity (getSimpleCallback sel)
      else match selectedSatPath st, selectedSatPathRef st with
           | Some path, _ => ComplexEntity path (getDynamicFuturePath sel)
           | None, Some path => ComplexEntity path (getDynamicFuturePath sel)
           | None, None => NothingDrawn
           end
  end.

(** The effect on [isTracked, selectedSat], with its 50 ms timer. *)
Definition trackingEffect (st : State) : State :=
  match selectedSat st with
  | Some _ =>
      if isTracked st then
        match renderSelected st with
        | ComplexEntity _ _ => with_viewer (set_trackedEntity (Some SelectedSatComplex)) st
        | SimpleEntity _ => with_viewer (set_trackedEntity (Some SelectedSatSimple)) st
        | NothingDrawn => st
        end
      else with_viewer (set_trackedEntity None) st
  | None => with_viewer (set_trackedEntity None) st
  end.

(** *** The tick listener *)

(** The block run at most once per second. *)
Definition refreshSelection (clk : Clock) (nowMs : Z) (st : State) : State :=
  let jsDate := currentTime clk in
  let out :=
    match selectedSat st with
    | Some sel => isOutOfRange jsDate sel
    | None => false
    end in
  st |> set_lastTickTime nowMs
     |> (if Bool.eqb out (isTleOutOfRange st) then fun s => s
         else fun s =>
                s |> set_isTleOutOfRange out
                  |> (if out then dropPath
                      else match selectedSat st with
                           | Some sel => calculatePreciseMovement sel
                           | None => fun s' => s'
                           end))
     |> (if out then set_tleWarning outOfRangeWarning else clearWarning st)
     |> (match selectedSat st with
         | Some sel => updateInfoPanel sel
         | None => fun s => s
         end).

(** [sourceList.slice(0, 1000)] *)
Definition subsetToCheck (st : State) : list Sat :=
  let sourceList :=
    match filteredSatellites st with
    | [] => satellites st
    | _ :: _ => filteredSatellites st
    end in
  firstn 1000 sourceList.

(** The body of [for (const sat of subsetToCheck)]: the entry pushed to
    [found], if any. *)
Definition scanOne (target : GroundTarget) (rangeMeters : Q) (currentJsDate : Z)
           (sat : Sat) : option Found :=
  match getSatrec sat with
  | None => None
  | Some satrec =>
      match propagate satrec currentJsDate with
      | Returned (Some pos, _) =>
          match (posGd <- eciToGeodetic pos currentJsDate ;; fromRadians posGd) with
          | Returned satCart =>
              match distance satCart (position target) with
              | Fin d =>
                  if Qltb d rangeMeters
                  then Some (mkFound (name sat) (id sat) (d / 1000)%Q)
                  else None
              | NaN => None
              end
          | Thrown => None
          end
      | _ => None
      end
  end.

Definition scanAll (target : GroundTarget) (rangeMeters : Q) (currentJsDate : Z)
           (subset : list Sat) : list Found :=
  flat_map (fun sat =>
              match scanOne target rangeMeters currentJsDate sat with
              | Some entry => [entry]
              | None => []
              end)
           subset.

(** [found.sort((a, b) => a.distanceKm - b.distanceKm)].  [Array.prototype.sort]
    is stable, and the comparator is a total preorder on finite distances, so
    the result is the stable sorted arrangement; insertion computes it. *)
Fixpoint insertByDistance (x : Found) (l : list Found) : list Found :=
  match l with
  | [] => [x]
  | y :: l' =>
      if Qle_bool (distanceKm x) (distanceKm y) then x :: l
      else y :: insertByDistance x l'
  end.

Definition sortByDistance (found : list Found) : list Found :=
  fold_right insertByDistance [] found.

(** The order of the sorted list, and the test for the entries at distance [d]. *)
Definition closer (a b : Found) : Prop := (distanceKm a <= distanceKm b)%Q.

Definition atDistance (d : Q) (x : Found) : bool := Qeq_bool (distanceKm x) d.

(** The sorted [found] of one scan cycle. *)
Definition scanFound (clk : Clock) (target : GroundTarget) (st : State) : list Found :=
  let rangeMeters := (scanRadius st * 1000)%Q in
  sortByDistance (scanAll target rangeMeters (currentTime clk) (subsetToCheck st)).

Definition toIntercept (x : Found) : Intercept :=
  mkIntercept (foundName x) (foundId x) (toFixedZ 0 (distanceKm x)).

(** [onTick(clock)], registered once there is a viewer; [nowMs] is [Date.now()].
    The scanner reads the values the listener closed over, which the first
    block does not change. *)
Definition onTick (nowMs : Z) (st : State) : State :=
  match viewer st with
  | None => st
  | Some v =>
      let clk := clock v in
      let st1 :=
        if 1000 <? nowMs - lastTickTime st then refreshSelection clk nowMs st else st in
      match groundTarget st with
      | Some target =>
          if 2000 <? nowMs - lastScannerCheck st
          then st1 |> set_lastScannerCheck nowMs
                   |> set_intercepts (map toIntercept (scanFound clk target st))
          else st1
      | None => st1
      end
  end.

(** *** Clock controls *)

Definition togglePlay (st : State) : State :=
  match viewer st with
  | None => st
  | Some v =>
      let c := clock v in
      let c' := mkClock (currentTime c) (clockMultiplier c) (negb (shouldAnimate c)) in
      st |> set_viewer (Some (set_clock c' v))
         |> set_isPaused (negb (shouldAnimate c'))
  end.

(** [setSpeed(val)]; [s] is [parseFloat(val)]. *)
Definition setSpeed (s : num) (st : State) : State :=
  match s with
  | NaN => st
  | Fin m =>
      let st1 := set_multiplier m st in
      match viewer st with
      | None => st1
      | Some v =>
          let c := clock v in
          st1 |> set_viewer (Some (set_clock (mkClock (currentTime c) m true) v))
              |> set_isPaused false
      end
  end.

(** The clamping of [handleDateChange]; [wallNow] is [Date.now()]. *)
Definition clampDate (newJsDate wallNow : Z) (st : State) : Z :=
  let finalDate := newJsDate in
  let finalDate :=
    match selectedSat st with
    | Some sel =>
        match getTleEpochDate sel with
        | Some epoch =>
            let maxLimit := epoch + MAX_FUTURE_DAYS * dayMs in
            if maxLimit <? finalDate then maxLimit else finalDate
        | None => finalDate
        end
    | None => finalDate
    end in
  let maxLimit := wallNow + MAX_FUTURE_DAYS * dayMs in
  if maxLimit <? finalDate then maxLimit else finalDate.

(** [handleDateChange(e)] for a non-empty input value; [newJsDate] is
    [new Date(e.target.value)]. *)
Definition handleDateChange (newJsDate wallNow : Z) (st : State) : State :=
  match viewer st with
  | None => st
  | Some v =>
      let finalDate := clampDate newJsDate wallNow st in
      let c' := mkClock finalDate (clockMultiplier (clock v)) true in
      let out :=
        match selectedSat st with
        | Some sel => isOutOfRange finalDate sel
        | None => false
        end in
      st |> set_viewer (Some (set_clock c' v))
         |> set_isTleOutOfRange out
         |> (if out
             then fun s => s |> dropPath |> set_tleWarning outOfRangeWarning
             else fun s =>
                    s |> (match selectedSat st with
                          | Some sel => calculatePreciseMovement sel
                          | None => fun s' => s'
                          end)
                      |> clearWarning st)
  end.

(** *** The session as a transition system *)

(** The state once the viewer is mounted and the initialisation timer has
    run: [clock.currentTime = now], [clock.multiplier = 10],
    [clock.shouldAnimate = true], and every [useState] cell at its initial
    value. *)
Definition initialState (now : Z) : State :=
  {| satellites := [];
     selectedSat := None;
     selectedSatPath := None;
     selectedSatPathRef := None;
     isTracked := false;
     isTleOutOfRange := false;
     tleWarning := "";
     selectedSatData := None;
     viewer := Some (mkViewer (mkClock now 10 true) None);
     filters := mkFilters "" false (0, 40000)%Q (0, 40000)%Q;
     filterMemoTime := now;
     groundTarget := None;
     intercepts := [];
     scanRadius := 500;
     lastTickTime := 0;
     lastScannerCheck := 0;
     isPaused := false;
     multiplier := 10 |}.

Inductive Event : Type :=
(** [fetchSatellites().then(setSatellites)] *)
| CatalogLoaded (fetched : outcome Loader.Response) (wallNow : Z)
(** the search box or an advanced-filter control *)
| FiltersChanged (f : Filters) (wallNow : Z)
(** a click on a satellite or on an intercept row *)
| SatelliteChosen (satId : nat) (wallNow : Z)
(** a single click on the background *)
| BackgroundClicked
(** the auto-deselect effect *)
| DeselectEffect
(** the track button *)
| TrackToggled
(** the tracking effect *)
| TrackingEffect
(** Cesium advances the clock by [elapsedMs] of real time *)
| ClockAdvanced (elapsedMs : Z)
(** the [onTick] listener *)
| Ticked (nowMs : Z)
| PlayToggled
| SpeedSet (s : num)
| DateChanged (newJsDate wallNow : Z)
(** [searchLocation] found a target *)
| TargetLocated (target : GroundTarget)
| RadiusChanged (km : Q).

Definition advanceClock (elapsedMs : Z) (v : Viewer) : Viewer :=
  let c := clock v in
  if shouldAnimate c
  then set_clock (mkClock (currentTime c + Qfloor (inject_Z elapsedMs * clockMultiplier c))
                          (clockMultiplier c) true) v
  else v.

Definition step (st : State) (e : Event) : State :=
  match e with
  | CatalogLoaded fetched wallNow =>
      match Loader.fetchSatellites fetched with
      | Returned data => st |> set_satellites data |> set_filters (filters st) wallNow
      | Thrown => st
      end
  | FiltersChanged f wallNow => set_filters f wallNow st
  | SatelliteChosen satId wallNow => selectSatelliteById satId wallNow st
  | BackgroundClicked => clearSelection st
  | DeselectEffect => autoDeselect st
  | TrackToggled =>
      match selectedSat st with
      | Some _ => if isSelectionInFilter st then set_isTracked (negb (isTracked st)) st else st
      | None => st
      end
  | TrackingEffect => trackingEffect st
  | ClockAdvanced elapsedMs => with_viewer (advanceClock elapsedMs) st
  | Ticked nowMs => onTick nowMs st
  | PlayToggled => togglePlay st
  | SpeedSet s => setSpeed s st
  | DateChanged newJsDate wallNow => handleDateChange newJsDate wallNow st
  | TargetLocated target =>
      st |> set_isTracked false
         |> with_viewer (set_trackedEntity None)
         |> set_groundTarget (Some target)
         |> set_intercepts []
  | RadiusChanged km => set_scanRadius km st
  end.

Definition run (st : State) (events : list Event) : State := fold_left step events st.

Inductive reachable : State -> Prop :=
| reachable_initial now : reachable (initialState now)
| reachable_step st e : reachable st -> reachable (step st e).

(** The clock the callers read: the Cesium clock of the mounted viewer. *)
Definition clockOf (st : State) : option Clock := option_map clock (viewer st).

(** Two states with the same inputs of the filtered view and of the scanner. *)
Definition sameCatalogView (a b : State) : Prop :=
  satellites a = satellites b /\ filters a = filters b
  /\ filterMemoTime a = filterMemoTime b /\ scanRadius a = scanRadius b
  /\ groundTarget a = groundTarget b.

End Model.

Arguments forRange : simpl never.
Arguments historySamples : simpl never.
Arguments futurePositions : simpl never.
Arguments filteredSatellites : simpl never.
Arguments scanFound : simpl never.
Arguments toFixedZ : simpl never.

(** ** The background markers *)

Section Background.
Context {lib : SatelliteJs}.


End Background.

(** ** The telemetry panel, [SatelliteInfo] *)

(** [Math.min] and [Math.max]: [NaN] as soon as one side is. *)
Definition num_min (a b : num) : num :=
  match a, b with
  | Fin x, Fin y => Fin (if Qle_bool x y then x else y)
  | _, _ => NaN
  end.

Definition num_max (a b : num) : num :=
  match a, b with
  | Fin x, Fin y => Fin (if Qle_bool x y then y else x)
  | _, _ => NaN
  end.

Definition num_div (a : num) (k : Q) : num :=
  match a with
  | Fin x => Fin (x / k)%Q
  | NaN => NaN
  end.

Module Panel.

Inductive TleLabel : Type := NOT_AVAILABLE | FRESH | STABLE | STALE | OLD.

Inductive StatusText : Type :=
| NO_SIGNAL | NO_TLE_DATA | ACTIVE_TRACKING | LOW_CONFIDENCE | DEGRADED_ORBIT.

(** The [ui] memo, without its colours. *)
Record Ui : Type := mkUi {
  days : option num;
  label : TleLabel;
  pct : num;
  status : StatusText
}.

(** The derivation from [tleDaysRaw], the age when it is a number and
    [null] otherwise. *)
Definition derive (tleDaysRaw : option num) : Ui :=
  let tleLabel :=
    match tleDaysRaw with
    | None => NOT_AVAILABLE
    | Some d =>
        if num_ltb d (Fin 3) then FRESH
        else if num_ltb d (Fin 14) then STABLE
        else if num_ltb d (Fin 30) then STALE
        else OLD
    end in
  let tlePct :=
    match tleDaysRaw with
    | None => Fin 0
    | Some d => num_max (Fin 0) (num_min (Fin 1) (num_div d 30))
    end in
  let statusText :=
    match tleDaysRaw with
    | None => NO_TLE_DATA
    | Some d =>
        if num_ltb d (Fin 14) then ACTIVE_TRACKING
        else if num_ltb d (Fin 30) then LOW_CONFIDENCE
        else DEGRADED_ORBIT
    end in
  mkUi tleDaysRaw tleLabel tlePct statusText.


(** The width of the bar, in percent: [(1 - ui.tle.pct) * 100]. *)
Definition barWidth (u : Ui) : num :=
  match pct u with
  | Fin p => Fin ((1 - p) * 100)%Q
  | NaN => NaN
  end.

End Panel.


(** ** A stand-in library for concrete runs *)

Module Fixture.
(** A satellite on a rail: its record is its epoch, [line1.length] days
    after 1970-01-01, and its position in metres is the number of
    milliseconds since that epoch. *)
Definition railLib : SatelliteJs :=
  {| Satrec := Z;
     Eci := Z;
     Geodetic := Z;
     Cartesian3 := Z;
     twoline2satrec := fun l1 _ =>
       if JsString.isEmpty l1 then Thrown
       else Returned (Z.of_nat (String.length l1) * dayMs);
     epochMs := fun satrec => Some satrec;
     propagate := fun satrec t => Returned (Some (t - satrec), Some 1);
     xIsNaN := fun _ => false;
     magnitude := fun _ => Fin 7;
     eciToGeodetic := fun pos _ => Returned pos;
     height := fun _ => Fin 400;
     degreesLatLong := fun _ => Returned (Fin 0, Fin 0);
     fromRadians := fun posGd => Returned posGd;
     distance := fun a b => Fin (inject_Z (Z.abs (a - b))) |}.

#[local] Existing Instance railLib.

Definition day (n : Z) : Z := n * dayMs.

Definition iss : Sat := mkSat 0 "ISS (ZARYA)" "1 i" "2 i".
Definition alpha : Sat := mkSat 3 "ALPHA" "1 a" "2 a".
Definition bravo : Sat := mkSat 6 "BRAVO" "1 bb" "2 bb".

Definition blob : string :=
  String.concat (String newline EmptyString)
    ["ISS (ZARYA)"; "1 i"; "2 i"; "ALPHA"; "1 a"; "2 a"; "BRAVO"; "1 bb"; "2 bb"; ""].

Definition load : Event :=
  CatalogLoaded (Returned (Loader.mkResponse true (Returned blob))) (day 10).

(** The session starts on day 10 and loads [[iss; alpha; bravo]]: the
    epoch of [alpha] is day 3, that of [bravo] day 4. *)
Definition loaded : State := run (initialState (day 10)) [load].

(** ["alp"] typed in the search box: the filtered view is [[alpha]]. *)
Definition searchAlp : Event :=
  FiltersChanged (mkFilters "alp" false (0, 40000)%Q (0, 40000)%Q) (day 10).

Definition searching : State := run (initialState (day 10)) [load; searchAlp].

(** [alpha] selected on day 10, seven days after its epoch. *)
Definition trackingAlpha : State :=
  run (initialState (day 10)) [load; SatelliteChosen 3 (day 10)].

(** The clock then runs, at its multiplier of 10, to day 34. *)
Definition pastHorizon : State :=
  run (initialState (day 10))
    [load; SatelliteChosen 3 (day 10); ClockAdvanced 207360000].

(** The date set to day 40 with nothing selected, then [alpha] selected. *)
Definition selectedLate : State :=
  run (initialState (day 10))
    [load; DateChanged (day 40) (day 10); SatelliteChosen 3 (day 10)].

(** From there the clock runs backwards to day 30. *)
Definition backInRange : State :=
  run (initialState (day 10))
    [load; DateChanged (day 40) (day 10); SatelliteChosen 3 (day 10);
     SpeedSet (Fin (-1000)); ClockAdvanced 864000].

(** A ground target 100 km from where [alpha] is on day 10. *)
Definition target : GroundTarget := mkGroundTarget (day 7 - 100000) "CUSTOM COORDS".

Definition scanning : State :=
  run (initialState (day 10)) [load; TargetLocated target].

Definition clockAt (t : Z) (m : Q) : Clock := mkClock t m true.

(** The record of an object whose epoch is day [n]. *)
Definition epochDay (n : Z) : Satrec := day n.


(** [bravo] chosen while the search box shows only [alpha]. *)
Definition bravoChosen : State := selectSatelliteById 6 (day 10) searching.

(** [alpha] chosen while the search box shows it. *)
Definition alphaChosen : State := selectSatelliteById 3 (day 10) searching.

(** A target half way between [alpha] and [bravo] on day 10, 43200 km from
    each, and a radius that takes both in. *)
Definition midTarget : GroundTarget := mkGroundTarget (day 7 - 43200000) "CUSTOM COORDS".

Definition scanningTies : State :=
  run (initialState (day 10)) [load; TargetLocated midTarget; RadiusChanged 50000].

(** A position on the rail, in metres. *)
Definition metres (m : Z) : Cartesian3 := m.

(** [alpha] selected and followed. *)
Definition following : State :=
  run (initialState (day 10)) [load; SatelliteChosen 3 (day 10); TrackToggled].

(** The only viewer of these runs, with its clock at [t] and multiplier [m]. *)
Definition viewerAt (t : Z) (m : Q) : Viewer := mkViewer (clockAt t m) None.

(** The speed set to 0 right after the start. *)
Definition stopped : State := run (initialState 0) [SpeedSet (Fin 0)].
End Fixture.

(* ================================================================== *)
(** * Part II. Properties                                              *)
(* ================================================================== *)

(** ** The loader *)

Lemma parse_backup : Loader.parseTLE Loader.BACKUP_TLE = [Loader.issRecord].
Proof. vm_compute. reflexivity. Qed.

(** A block of fewer than three lines at the end is dropped, and identifiers
    are line indices. *)
Example parse_two_and_a_half :
  map id (Loader.parseTLE
            (String.concat (String newline EmptyString)
               ["A"; "1 a"; "2 a"; ""; "  B "; "1 b"; "2 b"; "C"; "1 c"]))
  = [0; 3]%nat.
Proof. vm_compute. reflexivity. Qed.

(** The fuel of [parseLoop] is never what stops it: from index [i], any fuel
    of at least [lines.length - i] gives the same records. *)
Lemma parseLoop_fuel (lines : list string) :
  forall fuel1 fuel2 i,
    (List.length lines - i <= fuel1)%nat ->
    (List.length lines - i <= fuel2)%nat ->
    Loader.parseLoop fuel1 lines i = Loader.parseLoop fuel2 lines i.
Proof.
  induction fuel1 as [|f1 IH]; intros fuel2 i H1 H2.
  - destruct fuel2 as [|f2]; [reflexivity|]. simpl.
    destruct (Nat.ltb_spec i (List.length lines)); [lia | reflexivity].
  - destruct fuel2 as [|f2]; simpl.
    + destruct (Nat.ltb_spec i (List.length lines)); [lia | reflexivity].
    + destruct (Nat.ltb_spec i (List.length lines)); [|reflexivity].
      rewrite (IH f2 (i + 3)%nat) by lia.
      reflexivity.
Qed.

(** Every record of [parseTLE] has three non-empty lines. *)
Lemma parseLoop_records (lines : list string) :
  forall fuel i sat,
    In sat (Loader.parseLoop fuel lines i) ->
    nth_error lines (id sat) = Some (name sat)
    /\ nth_error lines (id sat + 1) = Some (line1 sat)
    /\ nth_error lines (id sat + 2) = Some (line2 sat)
    /\ (i <= id sat)%nat.
Proof.
  induction fuel as [|fuel IH]; intros i sat Hin; simpl in Hin; [contradiction|].
  destruct (i <? List.length lines)%nat; [|contradiction].
  destruct (nth_error lines i) as [n|] eqn:En;
    [destruct (nth_error lines (i + 1)) as [l1|] eqn:E1;
     [destruct (nth_error lines (i + 2)) as [l2|] eqn:E2|]|].
  2-4: apply IH in Hin; intuition lia.
  destruct (negb (JsString.isEmpty n) && negb (JsString.isEmpty l1)
            && negb (JsString.isEmpty l2)).
  - destruct Hin as [<- | Hin]; simpl.
    + repeat split; auto.
    + apply IH in Hin. intuition lia.
  - apply IH in Hin. intuition lia.
Qed.

(** C9. The catalog load never fails: whatever the fetch gave, [fetchSatellites]
    resolves to a list of records; it is the parse of the blob when the blob
    could be read, and otherwise (fetch rejected, response not ok, or body
    unreadable) the built-in catalog, which holds exactly one record, the ISS. *)
Theorem fetchSatellites_never_fails (fetched : outcome Loader.Response) :
  Loader.fetchSatellites fetched =
  Returned (match Loader.blobOf fetched with
            | Some body => Loader.parseTLE body
            | None => Loader.parseTLE Loader.BACKUP_TLE
            end)
  /\ Loader.parseTLE Loader.BACKUP_TLE = [Loader.issRecord]
  /\ name Loader.issRecord = "ISS (ZARYA)".
Proof.
  split; [|split; [exact parse_backup | reflexivity]].
  unfold Loader.fetchSatellites, Loader.blobOf.
  destruct fetched as [[isOk body]|]; simpl; [|reflexivity].
  destruct isOk; simpl; [|reflexivity].
  destruct body as [b|]; reflexivity.
Qed.

(** ** Freshness and validity *)

Lemma num_ltb_Fin (x y : Q) : num_ltb (Fin x) (Fin y) = true <-> (x < y)%Q.
Proof.
  simpl. rewrite negb_true_iff. split; intro H.
  - apply Qnot_le_lt. intro Hle. apply Qle_bool_iff in Hle. congruence.
  - destruct (Qle_bool y x) eqn:E; [|reflexivity].
    apply Qle_bool_iff in E. exfalso. exact (Qlt_not_le _ _ H E).
Qed.

Lemma num_ltb_Fin_false (x y : Q) : num_ltb (Fin x) (Fin y) = false <-> (y <= x)%Q.
Proof.
  simpl. rewrite negb_false_iff. apply Qle_bool_iff.
Qed.

(** An age in days against a whole number of days, in milliseconds. *)
Lemma age_lt_days (ms days : Z) :
  (inject_Z ms / inject_Z dayMs < inject_Z days)%Q <-> ms < days * dayMs.
Proof.
  unfold Qlt, Qdiv, Qmult, Qinv, inject_Z, dayMs. simpl. lia.
Qed.


Lemma days_le_age (ms days : Z) :
  (inject_Z days <= inject_Z ms / inject_Z dayMs)%Q <-> days * dayMs <= ms.
Proof.
  unfold Qle, Qdiv, Qmult, Qinv, inject_Z, dayMs. simpl. lia.
Qed.

Section Freshness.
Context {lib : SatelliteJs}.




End Freshness.

(** ** Orbit sampling *)

Lemma forRange_In (lo hi step i : Z) :
  In i (forRange lo hi step) <->
  exists k : nat, (k < Z.to_nat ((hi - lo) / step + 1))%nat /\ i = lo + step * Z.of_nat k.
Proof.
  unfold forRange. rewrite in_map_iff. split.
  - intros (k & <- & Hk). apply in_seq in Hk. exists k. split; [lia | reflexivity].
  - intros (k & Hk & ->). exists k. split; [reflexivity | apply in_seq; lia].
Qed.

Lemma forRange_length (lo hi step : Z) :
  List.length (forRange lo hi step) = Z.to_nat ((hi - lo) / step + 1).
Proof. unfold forRange. now rewrite length_map, length_seq. Qed.

Lemma seq_image_increasing (lo step : Z) (Hstep : 0 < step) :
  forall n start,
    StronglySorted Z.lt (map (fun k => lo + step * Z.of_nat k) (seq start n)).
Proof.
  induction n as [|n IH]; intro start; simpl; constructor.
  - apply IH.
  - apply Forall_forall. intros x Hx. apply in_map_iff in Hx as (k & <- & Hk).
    apply in_seq in Hk. nia.
Qed.

Lemma forRange_increasing (lo hi step : Z) :
  0 < step -> StronglySorted Z.lt (forRange lo hi step).
Proof. intro H. now apply seq_image_increasing. Qed.

(** Keeping at most one sample per index, stamped with an instant that grows
    with the index, keeps the instants increasing. *)
Lemma stamped_increasing {B : Type} (base : Z) (sample : Z -> option B) :
  forall indices,
    StronglySorted Z.lt indices ->
    StronglySorted Z.lt
      (map fst
         (flat_map (fun i =>
                      let t := base + i * minuteMs in
                      match sample t with
                      | Some b => [(t, b)]
                      | None => []
                      end) indices)).
Proof.
  induction 1 as [|i rest Hrest IH Hall]; simpl; [constructor|].
  destruct (sample (base + i * minuteMs)) as [b|]; simpl; [|exact IH].
  constructor; [exact IH|].
  apply Forall_forall. intros t Ht.
  apply in_map_iff in Ht as ((t', b') & <- & Hin).
  apply in_flat_map in Hin as (j & Hj & Hin).
  rewrite Forall_forall in Hall. specialize (Hall j Hj).
  destruct (sample (base + j * minuteMs)); [|contradiction].
  destruct Hin as [[= <- <-]|[]]. simpl. unfold minuteMs. lia.
Qed.

Lemma at_most_one_each {A B : Type} (g : A -> list B) (l : list A) :
  (forall a, List.length (g a) <= 1)%nat ->
  (List.length (flat_map g l) <= List.length l)%nat.
Proof.
  intro Hg. induction l as [|a l IH]; simpl; [lia|].
  rewrite length_app. specialize (Hg a). lia.
Qed.

Lemma all_kept {A B : Type} (f : A -> option B) (l : list A) :
  (forall a, In a l -> f a <> None) ->
  List.length (flat_map (fun a => match f a with Some b => [b] | None => [] end) l)
  = List.length l.
Proof.
  induction l as [|a l IH]; intro H; simpl; [reflexivity|].
  destruct (f a) eqn:E.
  - simpl. f_equal. apply IH. intros a' Ha'. apply H. now right.
  - exfalso. apply (H a); [now left | exact E].
Qed.

Lemma StronglySorted_lt_le (l : list Z) :
  StronglySorted Z.lt l -> StronglySorted Z.le l.
Proof.
  induction 1 as [|x l Hl IH Hall]; constructor; [exact IH|].
  eapply Forall_impl; [|exact Hall]. intros y Hy. simpl in Hy. lia.
Qed.

Section Sampling.
Context {lib : SatelliteJs}.

Lemma historySamples_In (satrec : Satrec) (center t : Z) (cart : Cartesian3) :
  In (t, cart) (historySamples satrec center) <->
  exists k, 0 <= k <= 240
            /\ t = center + (2 * k - 240) * minuteMs
            /\ positionAt satrec t = Some cart.
Proof.
  unfold historySamples. rewrite in_flat_map. split.
  - intros (i & Hi & Hin). apply forRange_In in Hi as (k & Hk & ->).
    change (Z.to_nat ((240 - -240) / 2 + 1)) with 241%nat in Hk.
    cbv zeta in Hin.
    destruct (positionAt satrec (center + (-240 + 2 * Z.of_nat k) * minuteMs))
      as [c|] eqn:E; [|contradiction].
    destruct Hin as [[= <- <-]|[]].
    exists (Z.of_nat k). split; [lia|].
    replace (2 * Z.of_nat k - 240) with (-240 + 2 * Z.of_nat k) by lia.
    split; [reflexivity | exact E].
  - intros (k & Hk & -> & Hpos).
    exists (2 * k - 240). split.
    + apply forRange_In. exists (Z.to_nat k).
      change (Z.to_nat ((240 - -240) / 2 + 1)) with 241%nat. split; lia.
    + cbv zeta. rewrite Hpos. now left.
Qed.

Lemma futurePositions_In (satrec : Satrec) (start : Z) (cart : Cartesian3) :
  In cart (futurePositions satrec start) <->
  exists i, 0 <= i <= 90 /\ positionAt satrec (start + i * minuteMs) = Some cart.
Proof.
  unfold futurePositions. rewrite in_flat_map. split.
  - intros (i & Hi & Hin). apply forRange_In in Hi as (k & Hk & ->).
    change (Z.to_nat ((90 - 0) / 1 + 1)) with 91%nat in Hk.
    destruct (positionAt satrec (start + (0 + 1 * Z.of_nat k) * minuteMs))
      as [c|] eqn:E; [|contradiction].
    destruct Hin as [<-|[]].
    exists (0 + 1 * Z.of_nat k). split; [lia | exact E].
  - intros (i & Hi & Hpos). exists i. split.
    + apply forRange_In. exists (Z.to_nat i).
      change (Z.to_nat ((90 - 0) / 1 + 1)) with 91%nat. split; lia.
    + rewrite Hpos. now left.
Qed.

(** C6. For every propagation record and centre instant, the history
    sampler holds exactly the instants [center + i] minutes, [i] even from
    -240 to 240, at which a position could be computed (a failing step is
    skipped and the later steps are still sampled), in increasing, hence
    non-decreasing, instant order; and for every start instant the future
    sampler is a function of the record and that instant alone, holding the
    positions at [start + i] minutes, [i] from 0 to 90, that could be
    computed: never more than the 91 steps of its loop. *)
Theorem sampler_contract (satrec : Satrec) (center start : Z) :
  (forall t cart,
      In (t, cart) (historySamples satrec center) <->
      exists k, 0 <= k <= 240
                /\ t = center + (2 * k - 240) * minuteMs
                /\ positionAt satrec t = Some cart)
  /\ StronglySorted Z.lt (map fst (historySamples satrec center))
  /\ StronglySorted Z.le (map fst (historySamples satrec center))
  /\ (List.length (historySamples satrec center) <= 241)%nat
  /\ (forall cart,
         In cart (futurePositions satrec start) <->
         exists i, 0 <= i <= 90 /\ positionAt satrec (start + i * minuteMs) = Some cart)
  /\ (List.length (futurePositions satrec start) <= 91)%nat.
Proof.
  assert (Hsorted : StronglySorted Z.lt (map fst (historySamples satrec center))).
  { unfold historySamples.
    apply (stamped_increasing center (positionAt satrec)).
    now apply forRange_increasing. }
  split; [intros; apply historySamples_In|].
  split; [exact Hsorted|].
  split; [now apply StronglySorted_lt_le|].
  split.
  - unfold historySamples.
    change 241%nat with (Z.to_nat ((240 - -240) / 2 + 1)).
    rewrite <- (forRange_length (-240) 240 2).
    apply at_most_one_each. intro i. cbv zeta.
    destruct (positionAt satrec (center + i * minuteMs)); simpl; lia.
  - split; [intros; apply futurePositions_In|].
    unfold futurePositions.
    change 91%nat with (Z.to_nat ((90 - 0) / 1 + 1)).
    rewrite <- (forRange_length 0 90 1).
    apply at_most_one_each. intro i.
    destruct (positionAt satrec (start + i * minuteMs)); simpl; lia.
Qed.

End Sampling.

Lemma futurePositions_full {lib : SatelliteJs} (satrec : Satrec) (start : Z) :
  (forall t, positionAt satrec t <> None) ->
  List.length (futurePositions satrec start) = 91%nat.
Proof.
  intro H. unfold futurePositions.
  rewrite (all_kept (fun i => positionAt satrec (start + i * minuteMs))).
  - now rewrite forRange_length.
  - intros i _. apply H.
Qed.

(** ** The proximity scanner *)

Section Scanner.
Context {lib : SatelliteJs}.

Lemma insertByDistance_perm (x : Found) (l : list Found) :
  Permutation (x :: l) (insertByDistance x l).
Proof.
  induction l as [|y l IH]; simpl; [reflexivity|].
  destruct (Qle_bool (distanceKm x) (distanceKm y)); [reflexivity|].
  rewrite perm_swap. now constructor.
Qed.

Lemma sortByDistance_perm (l : list Found) : Permutation l (sortByDistance l).
Proof.
  induction l as [|x l IH]; simpl; [constructor|].
  rewrite <- insertByDistance_perm. now constructor.
Qed.

Lemma insertByDistance_sorted (x : Found) (l : list Found) :
  StronglySorted closer l -> StronglySorted closer (insertByDistance x l).
Proof.
  induction 1 as [|y l Hl IH Hall]; simpl.
  - repeat constructor.
  - destruct (Qle_bool (distanceKm x) (distanceKm y)) eqn:E.
    + apply Qle_bool_iff in E.
      constructor; [now constructor|].
      constructor; [exact E|].
      eapply Forall_impl; [|exact Hall].
      intros z Hz. unfold closer in *. now apply Qle_trans with (distanceKm y).
    + assert (Hyx : closer y x).
      { unfold closer. apply Qlt_le_weak. apply Qnot_le_lt.
        intro Hle. apply Qle_bool_iff in Hle. congruence. }
      constructor; [exact IH|].
      apply Forall_forall. intros z Hz.
      apply (Permutation_in _ (Permutation_sym (insertByDistance_perm x l))) in Hz.
      destruct Hz as [<-|Hz]; [exact Hyx|].
      rewrite Forall_forall in Hall. now apply Hall.
Qed.

Lemma sortByDistance_sorted (l : list Found) : StronglySorted closer (sortByDistance l).
Proof.
  induction l as [|x l IH]; simpl; [constructor|].
  now apply insertByDistance_sorted.
Qed.

(** Insertion puts the new entry in front of every entry at its own
    distance: the entries at any one distance keep their order. *)
Lemma insertByDistance_stable (d : Q) (x : Found) (l : list Found) :
  filter (atDistance d) (insertByDistance x l) = filter (atDistance d) (x :: l).
Proof.
  induction l as [|y l IH]; [reflexivity|].
  simpl insertByDistance.
  destruct (Qle_bool (distanceKm x) (distanceKm y)) eqn:E; [reflexivity|].
  change (filter (atDistance d) (y :: insertByDistance x l))
    with (if atDistance d y then y :: filter (atDistance d) (insertByDistance x l)
          else filter (atDistance d) (insertByDistance x l)).
  rewrite IH. simpl.
  destruct (atDistance d x) eqn:Ex; [|reflexivity].
  destruct (atDistance d y) eqn:Ey; [|reflexivity].
  exfalso. unfold atDistance in Ex, Ey.
  apply Qeq_bool_iff in Ex, Ey.
  assert (Hle : (distanceKm x <= distanceKm y)%Q).
  { rewrite Ex, Ey. apply Qle_refl. }
  apply Qle_bool_iff in Hle. congruence.
Qed.

Lemma sortByDistance_stable (d : Q) (l : list Found) :
  filter (atDistance d) (sortByDistance l) = filter (atDistance d) l.
Proof.
  induction l as [|x l IH]; [reflexivity|].
  simpl sortByDistance. rewrite insertByDistance_stable. simpl. now rewrite IH.
Qed.

Lemma scanAll_In (target : GroundTarget) (rangeMeters : Q) (t : Z)
      (subset : list Sat) (x : Found) :
  In x (scanAll target rangeMeters t subset) <->
  exists sat, In sat subset /\ scanOne target rangeMeters t sat = Some x.
Proof.
  unfold scanAll. rewrite in_flat_map. split.
  - intros (sat & Hsat & Hin). exists sat. split; [exact Hsat|].
    destruct (scanOne target rangeMeters t sat); [|contradiction].
    destruct Hin as [<-|[]]. reflexivity.
  - intros (sat & Hsat & Hone). exists sat. split; [exact Hsat|].
    rewrite Hone. now left.
Qed.

(** What [scanOne] pushes: the entry of that object, at a distance under the range. *)
Lemma scanOne_entry (target : GroundTarget) (rangeMeters : Q) (t : Z)
      (sat : Sat) (x : Found) :
  scanOne target rangeMeters t sat = Some x ->
  foundName x = name sat /\ foundId x = id sat
  /\ (distanceKm x * 1000 < rangeMeters)%Q
  /\ exists satrec pos vel, getSatrec sat = Some satrec
                            /\ propagate satrec t = Returned (Some pos, vel).
Proof.
  unfold scanOne.
  destruct (getSatrec sat) as [satrec|]; [|discriminate].
  destruct (propagate satrec t) as [[[pos|] vel]|] eqn:Ep; try discriminate.
  destruct (Try.bind (eciToGeodetic pos t) (fun posGd => fromRadians posGd))
    as [satCart|]; [|discriminate].
  destruct (distance satCart (position target)) as [|d]; [discriminate|].
  destruct (Qltb d rangeMeters) eqn:E; [|discriminate].
  intros [= <-]. simpl. repeat split.
  - unfold Qltb in E. apply negb_true_iff in E.
    assert (Hlt : (d < rangeMeters)%Q).
    { apply Qnot_le_lt. intro Hle. apply Qle_bool_iff in Hle. congruence. }
    assert (Heq : (d / 1000 * 1000 == d)%Q) by (field).
    now rewrite Heq.
  - now exists satrec, pos, vel.
Qed.

(** An object without a record, or whose propagation throws or gives no
    position, contributes nothing. *)
Lemma scanOne_failure (target : GroundTarget) (rangeMeters : Q) (t : Z) (sat : Sat) :
  (getSatrec sat = None
   \/ exists satrec, getSatrec sat = Some satrec
                     /\ (propagate satrec t = Thrown
                         \/ exists vel, propagate satrec t = Returned (None, vel))) ->
  scanOne target rangeMeters t sat = None.
Proof.
  unfold scanOne. intros [H | (satrec & H & [Hp | (vel & Hp)])]; rewrite H; try reflexivity.
  - now rewrite Hp.
  - now rewrite Hp.
Qed.

(** The identifiers pushed, in order, are those of the objects of the
    subset that give an entry, in the order of the subset. *)
Lemma scanAll_ids (target : GroundTarget) (rangeMeters : Q) (t : Z)
      (keep : Found -> bool) (subset : list Sat) :
  map foundId (filter keep (scanAll target rangeMeters t subset))
  = map id (filter (fun sat => match scanOne target rangeMeters t sat with
                               | Some x => keep x
                               | None => false
                               end) subset).
Proof.
  induction subset as [|sat subset IH]; [reflexivity|].
  unfold scanAll in *. simpl.
  destruct (scanOne target rangeMeters t sat) as [x|] eqn:E; simpl; [|exact IH].
  destruct (keep x); simpl; [|exact IH].
  apply scanOne_entry in E as (_ & -> & _). now rewrite IH.
Qed.

End Scanner.

(** ** Handlers and the fields they leave alone *)

(** Splits on every test a handler makes, innermost first, with the state as
    a record. *)
Ltac innermost_test x :=
  lazymatch x with
  | context [match _ with _ => _ end] => fail
  | _ => idtac
  end.

Ltac split_tests :=
  repeat match goal with
         | |- context [match ?x with _ => _ end] =>
             innermost_test x; destruct x eqn:?; simpl in *
         end.

Ltac by_cases_on st := destruct st; simpl in *; subst; simpl; split_tests; try reflexivity.

Section Frames.
Context {lib : SatelliteJs}.

Lemma filteredSatellites_ext (a b : State) :
  sameCatalogView a b -> filteredSatellites a = filteredSatellites b.
Proof.
  intros (H1 & H2 & H3 & _). unfold filteredSatellites. now rewrite H1, H2, H3.
Qed.

Lemma updateInfoPanel_frame (sat : Sat) (st : State) :
  let st' := updateInfoPanel sat st in
  sameCatalogView st' st /\ selectedSat st' = selectedSat st
  /\ selectedSatPath st' = selectedSatPath st
  /\ selectedSatPathRef st' = selectedSatPathRef st
  /\ isTleOutOfRange st' = isTleOutOfRange st /\ viewer st' = viewer st
  /\ intercepts st' = intercepts st /\ isTracked st' = isTracked st
  /\ tleWarning st' = tleWarning st.
Proof.
  unfold updateInfoPanel, sameCatalogView. by_cases_on st; repeat split.
Qed.

Lemma calculatePreciseMovement_frame (sat : Sat) (st : State) :
  let st' := calculatePreciseMovement sat st in
  sameCatalogView st' st /\ selectedSat st' = selectedSat st
  /\ isTleOutOfRange st' = isTleOutOfRange st /\ viewer st' = viewer st
  /\ intercepts st' = intercepts st /\ isTracked st' = isTracked st
  /\ selectedSatData st' = selectedSatData st /\ tleWarning st' = tleWarning st.
Proof.
  unfold calculatePreciseMovement, sameCatalogView. by_cases_on st; repeat split.
Qed.

Lemma calculatePreciseMovement_path (sat : Sat) (st : State) (v : Viewer) (satrec : Satrec) :
  viewer st = Some v -> getSatrec sat = Some satrec ->
  let st' := calculatePreciseMovement sat st in
  selectedSatPath st' = Some (historySamples satrec (currentTime (clock v)))
  /\ selectedSatPathRef st' = Some (historySamples satrec (currentTime (clock v))).
Proof.
  intros Hv Hrec. unfold calculatePreciseMovement. rewrite Hv, Hrec.
  destruct st; simpl. split; reflexivity.
Qed.

End Frames.

Section Ticks.
Context {lib : SatelliteJs}.

Lemma refreshSelection_frame (clk : Clock) (nowMs : Z) (st : State) :
  let st' := refreshSelection clk nowMs st in
  sameCatalogView st' st /\ selectedSat st' = selectedSat st
  /\ viewer st' = viewer st /\ intercepts st' = intercepts st
  /\ lastScannerCheck st' = lastScannerCheck st /\ isTracked st' = isTracked st.
Proof.
  unfold refreshSelection, clearWarning, dropPath, updateInfoPanel,
    calculatePreciseMovement, sameCatalogView.
  by_cases_on st; repeat split.
Qed.

(** The intercept list after a tick on which the scanner runs. *)
Lemma onTick_intercepts (nowMs : Z) (st : State) (v : Viewer) (target : GroundTarget) :
  viewer st = Some v -> groundTarget st = Some target ->
  2000 < nowMs - lastScannerCheck st ->
  intercepts (onTick nowMs st) = map toIntercept (scanFound (clock v) target st)
  /\ lastScannerCheck (onTick nowMs st) = nowMs.
Proof.
  intros Hv Ht Hdue. unfold onTick. rewrite Hv, Ht.
  apply Z.ltb_lt in Hdue. rewrite Hdue.
  set (st1 := if 1000 <? nowMs - lastTickTime st then _ else st).
  destruct st1; simpl. split; reflexivity.
Qed.

(** Without a ground target, or within two seconds of the last scan, a tick
    leaves the intercept list as it was. *)
Lemma onTick_no_scan (nowMs : Z) (st : State) :
  groundTarget st = None \/ nowMs - lastScannerCheck st <= 2000 ->
  intercepts (onTick nowMs st) = intercepts st.
Proof.
  intro H. unfold onTick. destruct (viewer st) as [v|]; [|reflexivity].
  assert (Hst1 : intercepts (if 1000 <? nowMs - lastTickTime st
                            then refreshSelection (clock v) nowMs st else st)
                 = intercepts st).
  { destruct (1000 <? nowMs - lastTickTime st); [|reflexivity].
    apply refreshSelection_frame. }
  destruct (groundTarget st) as [target|]; [|exact Hst1].
  destruct H as [H|H]; [discriminate|].
  apply Z.ltb_ge in H. rewrite H. exact Hst1.
Qed.

Lemma filter_all {A : Type} (l : list A) : filter (fun _ => true) l = l.
Proof. induction l as [|a l IH]; simpl; [reflexivity | now rewrite IH]. Qed.

Lemma filter_twice {A : Type} (f g : A -> bool) (l : list A) :
  filter f (filter g l) = filter (fun a => g a && f a) l.
Proof.
  induction l as [|a l IH]; simpl; [reflexivity|].
  destruct (g a); simpl; [destruct (f a)|]; now rewrite IH.
Qed.

(** The filtered view is the catalog with some entries left out, in catalog order. *)
Lemma filteredSatellites_catalog_order (st : State) :
  exists keep, filteredSatellites st = filter keep (satellites st).
Proof.
  unfold filteredSatellites.
  destruct (JsString.isEmpty (JsString.trim (searchTerm (filters st))));
    destruct (showAdvFilters (filters st)); simpl.
  - eexists. reflexivity.
  - exists (fun _ => true). now rewrite filter_all.
  - eexists. apply filter_twice.
  - eexists. reflexivity.
Qed.

(** The scanned subset is a prefix of the catalog with some entries left out. *)
Lemma subsetToCheck_catalog_order (st : State) :
  exists keep, subsetToCheck st = firstn 1000 (filter keep (satellites st)).
Proof.
  unfold subsetToCheck.
  destruct (filteredSatellites_catalog_order st) as [keep Hkeep].
  destruct (filteredSatellites st) as [|sat rest] eqn:E.
  - exists (fun _ => true). now rewrite filter_all.
  - exists keep. now rewrite <- Hkeep.
Qed.

(** C5. For every scan cycle: the result list is sorted ascending by
    distance; it is a rearrangement of the entries pushed while walking the
    scanned subset, in which the entries at any one distance keep the order
    of the subset, which is catalog order; every entry is at a distance
    strictly under the scan radius; and an object whose record cannot be
    built or whose propagation throws or gives no position is left out,
    while every other object of the subset within range is still listed.
    The intercept list installed by the tick is that list, entry by entry. *)
Theorem scan_cycle (clk : Clock) (target : GroundTarget) (st : State) :
  let t := currentTime clk in
  let range := (scanRadius st * 1000)%Q in
  let subset := subsetToCheck st in
  let found := scanFound clk target st in
  StronglySorted closer found
  /\ Permutation (scanAll target range t subset) found
  /\ (forall d,
         filter (atDistance d) found
         = filter (atDistance d) (scanAll target range t subset))
  /\ (forall d,
         map foundId (filter (atDistance d) found)
         = map id (filter (fun sat => match scanOne target range t sat with
                                      | Some x => atDistance d x
                                      | None => false
                                      end) subset))
  /\ (exists keep, subset = firstn 1000 (filter keep (satellites st)))
  /\ (forall x, In x found -> (distanceKm x < scanRadius st)%Q)
  /\ (forall x, In x found <->
                exists sat, In sat subset /\ scanOne target range t sat = Some x)
  /\ (forall sat,
         getSatrec sat = None
         \/ (exists satrec, getSatrec sat = Some satrec
                            /\ (propagate satrec t = Thrown
                                \/ exists vel, propagate satrec t = Returned (None, vel))) ->
         scanOne target range t sat = None)
  /\ (forall nowMs v,
         viewer st = Some v -> clock v = clk -> groundTarget st = Some target ->
         2000 < nowMs - lastScannerCheck st ->
         intercepts (onTick nowMs st) = map toIntercept found).
Proof.
  intros t range subset found.
  assert (Hperm : Permutation (scanAll target range t subset) found)
    by apply sortByDistance_perm.
  assert (Hin : forall x, In x found <->
                          exists sat, In sat subset /\ scanOne target range t sat = Some x).
  { intro x. rewrite <- scanAll_In. split; intro H.
    - exact (Permutation_in _ (Permutation_sym Hperm) H).
    - exact (Permutation_in _ Hperm H). }
  split; [apply sortByDistance_sorted|].
  split; [exact Hperm|].
  split; [intro d; apply sortByDistance_stable|].
  split.
  { intro d. unfold found, scanFound. rewrite sortByDistance_stable.
    apply scanAll_ids. }
  split; [apply subsetToCheck_catalog_order|].
  split.
  { intros x Hx. apply Hin in Hx as (sat & _ & Hone).
    apply scanOne_entry in Hone as (_ & _ & Hlt & _).
    unfold range in Hlt.
    apply Qmult_lt_r with (z := 1000%Q); [reflexivity | exact Hlt]. }
  split; [exact Hin|].
  split; [intro sat; apply scanOne_failure|].
  intros nowMs v Hv <- Ht Hdue.
  now apply onTick_intercepts.
Qed.



End Ticks.

(** ** Selection *)

Lemma existsb_id (i : nat) (l : list Sat) :
  existsb (fun s => (id s =? i)%nat) l = true <-> In i (map id l).
Proof.
  rewrite existsb_exists, in_map_iff. split.
  - intros (s & Hs & He). apply Nat.eqb_eq in He. now exists s.
  - intros (s & He & Hs). exists s. split; [exact Hs | now apply Nat.eqb_eq].
Qed.

Lemma find_id (i : nat) (l : list Sat) (sat : Sat) :
  find (fun s => (id s =? i)%nat) l = Some sat -> In sat l /\ id sat = i.
Proof.
  intro H. apply find_some in H as [Hin He]. apply Nat.eqb_eq in He. now split.
Qed.

Lemma find_id_none (i : nat) (l : list Sat) :
  find (fun s => (id s =? i)%nat) l = None <-> ~ In i (map id l).
Proof.
  split.
  - intros H Hin. apply in_map_iff in Hin as (s & He & Hs).
    apply (find_none _ _ H) in Hs. apply Nat.eqb_neq in Hs. contradiction.
  - intro H. destruct (find _ l) as [sat|] eqn:E; [|reflexivity].
    apply find_id in E as [Hin He]. exfalso. apply H. subst i. now apply in_map.
Qed.

Section Selection.
Context {lib : SatelliteJs}.

Lemma clearSelection_spec (st : State) :
  let st' := clearSelection st in
  selectedSat st' = None /\ selectedSatPath st' = None
  /\ selectedSatPathRef st' = None /\ isTracked st' = false
  /\ selectedSatData st' = None
  /\ viewer st' = option_map (set_trackedEntity None) (viewer st)
  /\ sameCatalogView st' st
  /\ isTleOutOfRange st' = isTleOutOfRange st
  /\ intercepts st' = intercepts st.
Proof.
  unfold clearSelection, with_viewer, sameCatalogView.
  destruct st as [? ? ? ? ? ? ? ? [v|] ? ? ? ? ? ? ? ? ?]; simpl; repeat split.
Qed.

(** C7. Whenever an object is tracked and its identifier is not among the
    identifiers of the filtered view, the filter-change effect returns the
    selection to IDLE: the selection, the cached path (state and ref), the
    follow flag, the tracked entity of the camera and the selection
    snapshot handed to the panel are all reset; the clock, the catalog, the
    filters, the warning and the intercepts are untouched, and no error is
    raised, the effect being a total function of the state. *)
Theorem filter_change_clears (st : State) (sel : Sat)
    (Htracking : selectedSat st = Some sel)
    (Hhidden : ~ In (id sel) (map id (filteredSatellites st))) :
  let st' := autoDeselect st in
  selectedSat st' = None
  /\ selectedSatPath st' = None
  /\ selectedSatPathRef st' = None
  /\ isTracked st' = false
  /\ selectedSatData st' = None
  /\ option_map trackedEntity (viewer st') = option_map (fun _ => None) (viewer st)
  /\ clockOf st' = clockOf st
  /\ satellites st' = satellites st
  /\ filters st' = filters st
  /\ tleWarning st' = tleWarning st
  /\ intercepts st' = intercepts st.
Proof.
  intro st'. subst st'. unfold autoDeselect. rewrite Htracking.
  destruct (existsb _ (filteredSatellites st)) eqn:E.
  { apply existsb_id in E. contradiction. }
  destruct (clearSelection_spec st) as (H1 & H2 & H3 & H4 & H5 & H6 & H7 & _ & H9).
  repeat (split; [assumption|]).
  split; [rewrite H6; now destruct (viewer st)|].
  split; [unfold clockOf; rewrite H6; now destruct (viewer st)|].
  destruct H7 as (Hs & Hf & _).
  repeat (split; [assumption|]).
  split; [|exact H9].
  unfold clearSelection, with_viewer.
  destruct st as [? ? ? ? ? ? ? ? [v|] ? ? ? ? ? ? ? ? ?]; reflexivity.
Qed.

(** While the selection is in the filtered view the effect does nothing. *)
Lemma autoDeselect_visible (st : State) :
  isSelectionInFilter st = true -> autoDeselect st = st.
Proof.
  unfold isSelectionInFilter, autoDeselect.
  destruct (selectedSat st); [|reflexivity]. now intros ->.
Qed.

(** What [selectSatelliteById] does for an identifier of the catalog, with
    the viewer mounted. *)
Lemma select_found (satId : nat) (wallNow : Z) (st : State) (sat : Sat) (v : Viewer) :
  find (fun s => (id s =? satId)%nat) (satellites st) = Some sat ->
  viewer st = Some v ->
  let t := currentTime (clock v) in
  let out := isOutOfRange t sat in
  let st' := selectSatelliteById satId wallNow st in
  selectedSat st' = Some sat
  /\ isTleOutOfRange st' = out
  /\ selectedSatPath st' =
       (if out then None
        else match getSatrec sat with
             | Some satrec => Some (historySamples satrec t)
             | None => selectedSatPath st
             end)
  /\ selectedSatPathRef st' =
       (if out then None
        else match getSatrec sat with
             | Some satrec => Some (historySamples satrec t)
             | None => selectedSatPathRef st
             end)
  /\ selectedSatData st' =
       match getSatrec sat with
       | Some satrec =>
           match locate satrec t with
           | Returned geo =>
               Some (mkSatData (name sat) (id sat) geo
                       (toFixed 2 (tleAgeDaysAt t satrec))
                       (tleAgeLabelOf (tleAgeDaysAt t satrec)))
           | Thrown => selectedSatData st
           end
       | None => selectedSatData st
       end
  /\ viewer st' = Some (set_trackedEntity None v)
  /\ sameCatalogView st' st
  /\ isTracked st' = isTracked st.
Proof.
  intros Hfind Hv t out st'. subst st' out t.
  unfold selectSatelliteById. rewrite Hfind, Hv.
  unfold clearWarning, dropPath, updateInfoPanel, calculatePreciseMovement,
    with_viewer, sameCatalogView.
  destruct st as [? ? ? ? ? ? ? ? vw ? ? ? ? ? ? ? ? ?]; simpl in *. subst vw.
  destruct (isOutOfRange (currentTime (clock v)) sat); simpl;
    destruct (getSatrec sat) as [satrec|]; simpl;
    split_tests; repeat split.
Qed.

Lemma select_unknown (satId : nat) (wallNow : Z) (st : State) :
  ~ In satId (map id (satellites st)) -> selectSatelliteById satId wallNow st = st.
Proof.
  intro H. apply find_id_none in H. unfold selectSatelliteById. now rewrite H.
Qed.

End Selection.

(** ** Validity transitions on a tick *)

Section Validity.
Context {lib : SatelliteJs}.

(** On a tick that passes the one-second throttle, the selection fields
    are those [refreshSelection] leaves; the scanner does not touch them. *)
Lemma onTick_refresh (nowMs : Z) (st : State) (v : Viewer) :
  viewer st = Some v -> 1000 < nowMs - lastTickTime st ->
  let st' := onTick nowMs st in
  let r := refreshSelection (clock v) nowMs st in
  selectedSat st' = selectedSat r
  /\ selectedSatPath st' = selectedSatPath r
  /\ selectedSatPathRef st' = selectedSatPathRef r
  /\ isTleOutOfRange st' = isTleOutOfRange r
  /\ selectedSatData st' = selectedSatData r
  /\ tleWarning st' = tleWarning r.
Proof.
  intros Hv Hdue. unfold onTick. rewrite Hv.
  apply Z.ltb_lt in Hdue. rewrite Hdue. cbv zeta.
  destruct (groundTarget st); [destruct (2000 <? nowMs - lastScannerCheck st)|];
    destruct (refreshSelection (clock v) nowMs st); simpl; repeat split.
Qed.

(** A throttled tick changes neither the selection nor its path. *)
Lemma onTick_throttled (nowMs : Z) (st : State) :
  nowMs - lastTickTime st <= 1000 ->
  let st' := onTick nowMs st in
  selectedSat st' = selectedSat st
  /\ selectedSatPath st' = selectedSatPath st
  /\ selectedSatPathRef st' = selectedSatPathRef st
  /\ isTleOutOfRange st' = isTleOutOfRange st.
Proof.
  intro H. unfold onTick. apply Z.ltb_ge in H. rewrite H.
  destruct st as [? ? ? ? ? ? ? ? [v|] ? ? [target|] ? ? ? ? ? ?]; simpl;
    try destruct (2000 <? _); simpl; repeat split.
Qed.



(** With the flag as it was, the tick does no resampling. *)
Lemma refreshSelection_steady (clk : Clock) (nowMs : Z) (st : State) :
  match selectedSat st with
  | Some sel => isOutOfRange (currentTime clk) sel
  | None => false
  end = isTleOutOfRange st ->
  let st' := refreshSelection clk nowMs st in
  selectedSatPath st' = selectedSatPath st
  /\ selectedSatPathRef st' = selectedSatPathRef st
  /\ isTleOutOfRange st' = isTleOutOfRange st.
Proof.
  intro H. unfold refreshSelection. rewrite H, Bool.eqb_reflx.
  unfold clearWarning, updateInfoPanel.
  destruct st; simpl in *. split_tests; repeat split.
Qed.


End Validity.

(** ** Invariants of the session *)

Section Invariants.
Context {lib : SatelliteJs}.

Lemma step_keeps_viewer (st : State) (e : Event) :
  viewer st <> None -> viewer (step st e) <> None.
Proof.
  intro H. destruct (viewer st) as [v|] eqn:Hv; [clear H | contradiction].
  destruct e; simpl;
    unfold selectSatelliteById, autoDeselect, clearSelection, trackingEffect,
      onTick, refreshSelection, togglePlay, setSpeed, handleDateChange,
      clearWarning, dropPath, updateInfoPanel, calculatePreciseMovement,
      with_viewer, advanceClock;
    destruct st; simpl in *; subst; split_tests; discriminate.
Qed.

(** Once mounted, the viewer stays. *)
Lemma reachable_viewer (st : State) : reachable st -> viewer st <> None.
Proof.
  induction 1 as [now | st e _ IH]; [discriminate|].
  now apply step_keeps_viewer.
Qed.





End Invariants.

(** ** The claims on selection and validity *)

Section SelectionClaims.
Context {lib : SatelliteJs}.

Lemma select_view (satId : nat) (wallNow : Z) (st : State) :
  filteredSatellites (selectSatelliteById satId wallNow st) = filteredSatellites st.
Proof.
  destruct (find (fun s => (id s =? satId)%nat) (satellites st)) as [sat|] eqn:Hfind.
  - apply filteredSatellites_ext.
    unfold selectSatelliteById. rewrite Hfind.
    unfold clearWarning, dropPath, updateInfoPanel, calculatePreciseMovement,
      with_viewer, sameCatalogView.
    destruct st; simpl in *. split_tests; repeat split.
  - unfold selectSatelliteById. now rewrite Hfind.
Qed.


(** C4, as the code has it.  [selectSatelliteById] looks the identifier up
    in the whole catalog, not in the filtered view.  For an identifier that
    is not in the catalog it changes nothing.  For an identifier of the
    catalog whose propagation record can be built, with the viewer mounted,
    it enters TRACKING of that object, samples the history path around the
    clock's instant when the object is within its validity window and drops
    the path otherwise, and publishes the freshness state (age and label)
    when the position can be computed.  When the identifier is outside the
    filtered view, the auto-deselect effect that follows returns the
    selection to IDLE; when it is inside, that effect changes nothing. *)
Theorem select_by_catalog_lookup (satId : nat) (wallNow : Z) (st : State) :
  (~ In satId (map id (satellites st)) -> selectSatelliteById satId wallNow st = st)
  /\ (forall sat v satrec,
         find (fun s => (id s =? satId)%nat) (satellites st) = Some sat ->
         viewer st = Some v ->
         getSatrec sat = Some satrec ->
         let t := currentTime (clock v) in
         let st' := selectSatelliteById satId wallNow st in
         In sat (satellites st) /\ id sat = satId
         /\ selectedSat st' = Some sat
         /\ isTleOutOfRange st' = isOutOfRange t sat
         /\ selectedSatPath st' =
              (if isOutOfRange t sat then None else Some (historySamples satrec t))
         /\ (forall geo,
                locate satrec t = Returned geo ->
                selectedSatData st' =
                  Some (mkSatData (name sat) satId geo
                          (toFixed 2 (tleAgeDaysAt t satrec))
                          (tleAgeLabelOf (tleAgeDaysAt t satrec))))
         /\ (~ In satId (map id (filteredSatellites st)) ->
             selectedSat (autoDeselect st') = None
             /\ selectedSatPath (autoDeselect st') = None
             /\ selectedSatData (autoDeselect st') = None)
         /\ (In satId (map id (filteredSatellites st)) -> autoDeselect st' = st')).
Proof.
  split; [apply select_unknown|].
  intros sat v satrec Hfind Hv Hrec t st'.
  destruct (select_found satId wallNow st sat v Hfind Hv)
    as (Hsel & Hflag & Hpath & _ & Hdata & _).
  fold t st' in Hsel, Hflag, Hpath, Hdata.
  rewrite Hrec in Hpath, Hdata.
  destruct (find_id _ _ _ Hfind) as [Hin Hid].
  split; [exact Hin|]. split; [exact Hid|].
  split; [exact Hsel|]. split; [exact Hflag|]. split; [exact Hpath|].
  split; [intros geo Hgeo; rewrite Hgeo, Hid in Hdata; exact Hdata|].
  split.
  - intro Hhidden.
    assert (E : existsb (fun s => (id s =? id sat)%nat) (filteredSatellites st') = false).
    { destruct (existsb _ (filteredSatellites st')) eqn:E; [|reflexivity].
      apply existsb_id in E. subst st'. rewrite select_view, Hid in E. contradiction. }
    unfold autoDeselect. rewrite Hsel, E.
    destruct (clearSelection_spec st') as (H1 & H2 & _ & _ & H5 & _).
    now repeat split.
  - intro Hvisible. apply autoDeselect_visible.
    unfold isSelectionInFilter. rewrite Hsel. apply existsb_id.
    subst st'. now rewrite select_view, Hid.
Qed.

End SelectionClaims.

(** ** The clock *)

Section ClockClaims.
Context {lib : SatelliteJs}.

Lemma handleDateChange_clock (t wallNow : Z) (st : State) (v : Viewer) :
  viewer st = Some v ->
  clockOf (handleDateChange t wallNow st)
  = Some (mkClock (clampDate t wallNow st) (clockMultiplier (clock v)) true).
Proof.
  intro Hv. unfold handleDateChange. rewrite Hv.
  unfold clockOf, clearWarning, dropPath, calculatePreciseMovement.
  destruct st; simpl in *. subst. split_tests; reflexivity.
Qed.

(** The two ceilings of [handleDateChange] hold, and it never moves the
    requested instant forward. *)
Lemma clampDate_upper (t wallNow : Z) (st : State) :
  clampDate t wallNow st <= wallNow + MAX_FUTURE_DAYS * dayMs
  /\ clampDate t wallNow st <= t
  /\ (forall sel epoch,
         selectedSat st = Some sel -> getTleEpochDate sel = Some epoch ->
         clampDate t wallNow st <= epoch + MAX_FUTURE_DAYS * dayMs).
Proof.
  unfold clampDate. set (horizon := MAX_FUTURE_DAYS * dayMs).
  destruct (selectedSat st) as [sel|]; [destruct (getTleEpochDate sel) as [epoch|] eqn:E|];
    cbv zeta.
  - destruct (Z.ltb_spec (epoch + horizon) t) as [H1|H1];
      [destruct (Z.ltb_spec (wallNow + horizon) (epoch + horizon)) as [H2|H2]
      |destruct (Z.ltb_spec (wallNow + horizon) t) as [H2|H2]];
      (split; [lia|]); (split; [lia|]); intros sel' epoch' Hs He;
      injection Hs as <-; rewrite E in He; injection He as <-; lia.
  - destruct (Z.ltb_spec (wallNow + horizon) t) as [H2|H2];
      (split; [lia|]); (split; [lia|]); intros sel' epoch' Hs He;
      injection Hs as <-; rewrite E in He; discriminate.
  - destruct (Z.ltb_spec (wallNow + horizon) t) as [H2|H2];
      (split; [lia|]); (split; [lia|]); intros sel' epoch' Hs He; discriminate.
Qed.

(** An instant under both ceilings is installed as it is. *)
Lemma clampDate_within (t wallNow : Z) (st : State) :
  t <= wallNow + MAX_FUTURE_DAYS * dayMs ->
  (forall sel epoch,
      selectedSat st = Some sel -> getTleEpochDate sel = Some epoch ->
      t <= epoch + MAX_FUTURE_DAYS * dayMs) ->
  clampDate t wallNow st = t.
Proof.
  intros Hglobal Hepoch. unfold clampDate.
  destruct (selectedSat st) as [sel|]; [destruct (getTleEpochDate sel) as [epoch|] eqn:E|];
    cbv zeta.
  - specialize (Hepoch sel epoch eq_refl E).
    destruct (Z.ltb_spec (epoch + MAX_FUTURE_DAYS * dayMs) t); [lia|].
    destruct (Z.ltb_spec (wallNow + MAX_FUTURE_DAYS * dayMs) t); [lia | reflexivity].
  - destruct (Z.ltb_spec (wallNow + MAX_FUTURE_DAYS * dayMs) t); [lia | reflexivity].
  - destruct (Z.ltb_spec (wallNow + MAX_FUTURE_DAYS * dayMs) t); [lia | reflexivity].
Qed.

(** C1, where the code departs from it.  With an object selected, a
    requested instant before the object's epoch (and under the global
    ceiling) is installed in the clock as it is: the lower bound of the
    interval [epoch, epoch + 30 days] is not enforced by [handleDateChange]. *)
Theorem date_before_epoch_is_installed (st : State) (v : Viewer) (sel : Sat)
    (epoch t wallNow : Z)
    (Hviewer : viewer st = Some v)
    (Hsel : selectedSat st = Some sel)
    (Hepoch : getTleEpochDate sel = Some epoch)
    (Hbefore : t < epoch)
    (Hglobal : t <= wallNow + MAX_FUTURE_DAYS * dayMs) :
  option_map currentTime (clockOf (handleDateChange t wallNow st)) = Some t
  /\ ~ (epoch <= t <= epoch + MAX_FUTURE_DAYS * dayMs).
Proof.
  split; [|lia].
  rewrite (handleDateChange_clock t wallNow st v Hviewer). simpl. f_equal.
  apply clampDate_within; [exact Hglobal|].
  intros sel' epoch' Hsel' Hepoch'.
  rewrite Hsel in Hsel'. injection Hsel' as <-.
  rewrite Hepoch in Hepoch'. injection Hepoch' as <-.
  unfold MAX_FUTURE_DAYS, dayMs. lia.
Qed.

(** C8, as the code has it.  The clock starts with multiplier 10, and so
    does the control that shows it.  [setSpeed] ignores an input that does
    not parse to a number; any number [m], zero included, becomes the
    multiplier shown and, with the viewer mounted, the multiplier of the
    clock, which it forces into the RUNNING state. *)
Theorem setSpeed_contract (st : State) (m : Q) (now : Z) :
  clockOf (initialState now) = Some (mkClock now 10 true)
  /\ multiplier (initialState now) = 10%Q
  /\ setSpeed NaN st = st
  /\ multiplier (setSpeed (Fin m) st) = m
  /\ clockOf (setSpeed (Fin m) st)
     = option_map (fun c => mkClock (currentTime c) m true) (clockOf st)
  /\ isPaused (setSpeed (Fin m) st)
     = match viewer st with Some _ => false | None => isPaused st end
  /\ clockOf (setSpeed (Fin 0) (initialState now)) = Some (mkClock now 0 true).
Proof.
  unfold setSpeed, clockOf.
  destruct st as [? ? ? ? ? ? ? ? [v|] ? ? ? ? ? ? ? ? ?]; simpl; repeat split.
Qed.

Lemma reachable_run (now : Z) (events : list Event) :
  reachable (run (initialState now) events).
Proof.
  unfold run. generalize (reachable_initial now).
  generalize (initialState now) as st.
  induction events as [|e events IH]; intros st Hst; simpl; [exact Hst|].
  apply IH. now constructor.
Qed.

End ClockClaims.

(* ================================================================== *)
(** * Part III. Concrete runs                                          *)
(* ================================================================== *)

Module Runs.
Import Fixture.
#[local] Existing Instance railLib.

Example loaded_catalog : satellites loaded = [iss; alpha; bravo].
Proof. vm_compute. reflexivity. Qed.

Example searching_view : filteredSatellites searching = [alpha].
Proof. vm_compute. reflexivity. Qed.

(** The first record of every catalog has identifier 0, for which
    [getSatrec] gives no record. *)
Example first_record_has_no_satrec : getSatrec iss = None /\ getSatrec alpha = Some (day 3).
Proof. split; reflexivity. Qed.

(** Two objects at the same distance are listed in catalog order. *)
Example ties_keep_catalog_order :
  map (fun x => (foundId x, toFixedZ 0 (distanceKm x)))
      (scanFound (clockAt (day 10) 10) midTarget scanningTies)
  = [(3%nat, 43200); (6%nat, 43200)].
Proof. vm_compute. reflexivity. Qed.

(** What is printed is rounded: an entry at 499.6 km, inside a radius of
    500 km, is printed as 500, and an age of 2.996 days is published as 3.00. *)
Example printed_values_are_rounded :
  toFixedZ 0 (4996 # 10) = 500 /\ toFixedZ 2 (2996 # 1000) = 300.
Proof. vm_compute. split; reflexivity. Qed.

Example clocks :
  clockOf trackingAlpha = Some (clockAt (day 10) 10)
  /\ clockOf pastHorizon = Some (clockAt (day 34) 10)
  /\ clockOf selectedLate = Some (clockAt (day 40) 10)
  /\ clockOf backInRange = Some (clockAt (day 30) (-1000)).
Proof. vm_compute. repeat split. Qed.
End Runs.

(** ** The properties at the concrete runs *)

#[local] Existing Instance Fixture.railLib.

Ltac run_it := vm_compute; reflexivity.


(** The sample at the centre of the window, and the bound on the future path. *)
Lemma sampler_contract_witness :
  In (Fixture.day 10, Fixture.day 7)
     (historySamples (Fixture.epochDay 3) (Fixture.day 10))
  /\ (List.length (futurePositions (Fixture.epochDay 3) (Fixture.day 10)) <= 91)%nat.
Proof.
  destruct (sampler_contract (Fixture.epochDay 3) (Fixture.day 10) (Fixture.day 10))
    as (Hin & _ & _ & _ & _ & Hlen).
  split; [|exact Hlen].
  apply Hin. exists 120. repeat split; try lia; reflexivity.
Defined.

(** The scenario of the specification: of two objects, one at 100 km and one
    far away, a 500 km scan keeps the first only. *)
Lemma scan_cycle_witness :
  map foundId
      (scanFound (Fixture.clockAt (Fixture.day 10) 10) Fixture.target Fixture.scanning)
  = [3%nat]
  /\ Forall (fun x => (distanceKm x < 500)%Q)
       (scanFound (Fixture.clockAt (Fixture.day 10) 10) Fixture.target Fixture.scanning)
  /\ map interceptKm (intercepts (onTick 5000 Fixture.scanning)) = [100].
Proof.
  destruct (scan_cycle (Fixture.clockAt (Fixture.day 10) 10) Fixture.target
              Fixture.scanning)
    as (_ & _ & _ & _ & _ & Hrange & _ & _ & Htick).
  split; [run_it|]. split.
  - apply Forall_forall. intros x Hx. exact (Hrange x Hx).
  - rewrite (Htick 5000 (mkViewer (Fixture.clockAt (Fixture.day 10) 10) None));
      [run_it | run_it | reflexivity | run_it | reflexivity].
Defined.


(** [bravo] selected while the search box shows only [alpha]. *)
Lemma filter_change_clears_witness :
  selectedSat Fixture.bravoChosen = Some Fixture.bravo
  /\ selectedSat (autoDeselect Fixture.bravoChosen) = None
  /\ selectedSatPath (autoDeselect Fixture.bravoChosen) = None
  /\ selectedSatData (autoDeselect Fixture.bravoChosen) = None.
Proof.
  assert (Hsel : selectedSat Fixture.bravoChosen = Some Fixture.bravo) by run_it.
  assert (Hhidden : ~ In (id Fixture.bravo)
                        (map id (filteredSatellites Fixture.bravoChosen))).
  { vm_compute. intros [H|[]]. discriminate. }
  destruct (filter_change_clears Fixture.bravoChosen Fixture.bravo Hsel Hhidden)
    as (H1 & H2 & _ & _ & H5 & _).
  repeat split; assumption.
Defined.


(** An identifier that is not in the catalog, and [alpha] chosen while visible. *)
Lemma select_by_catalog_lookup_witness :
  selectSatelliteById 99 (Fixture.day 10) Fixture.searching = Fixture.searching
  /\ selectedSat Fixture.alphaChosen = Some Fixture.alpha
  /\ selectedSatPath Fixture.alphaChosen
     = Some (historySamples (Fixture.epochDay 3) (Fixture.day 10))
  /\ autoDeselect Fixture.alphaChosen = Fixture.alphaChosen.
Proof.
  destruct (select_by_catalog_lookup 99 (Fixture.day 10) Fixture.searching)
    as [Hunknown _].
  destruct (select_by_catalog_lookup 3 (Fixture.day 10) Fixture.searching)
    as [_ Hknown].
  split.
  - apply Hunknown. vm_compute. intros [H|[H|[H|[]]]]; discriminate.
  - destruct (Hknown Fixture.alpha (mkViewer (Fixture.clockAt (Fixture.day 10) 10) None)
                (Fixture.epochDay 3))
      as (_ & _ & Hsel & _ & Hpath & _ & _ & Hvisible); [run_it | run_it | run_it |].
    split; [exact Hsel|]. split; [exact Hpath|].
    apply Hvisible. vm_compute. now left.
Defined.

(** With [alpha] selected (epoch day 3), the date set to day 2 is installed. *)
Lemma date_before_epoch_is_installed_witness :
  option_map currentTime
    (clockOf (handleDateChange (Fixture.day 2) (Fixture.day 10) Fixture.trackingAlpha))
  = Some (Fixture.day 2)
  /\ ~ (Fixture.day 3 <= Fixture.day 2 <= Fixture.day 3 + MAX_FUTURE_DAYS * dayMs).
Proof.
  apply (date_before_epoch_is_installed Fixture.trackingAlpha
           (mkViewer (Fixture.clockAt (Fixture.day 10) 10) None) Fixture.alpha).
  - run_it.
  - run_it.
  - run_it.
  - reflexivity.
  - discriminate.
Defined.

(** C4, as stated, fails: [bravo] is outside the filtered view, yet choosing
    it enters TRACKING of it and samples its history path, all 241 points. *)
Lemma select_outside_filter_tracks_and_samples :
  ~ In 6%nat (map id (filteredSatellites Fixture.searching))
  /\ selectedSat (selectSatelliteById 6 (Fixture.day 10) Fixture.searching)
     = Some Fixture.bravo
  /\ selectedSatPath (selectSatelliteById 6 (Fixture.day 10) Fixture.searching)
     = Some (historySamples (Fixture.epochDay 4) (Fixture.day 10))
  /\ List.length (historySamples (Fixture.epochDay 4) (Fixture.day 10)) = 241%nat.
Proof.
  split; [|split; [|split]].
  - vm_compute. intros [H|[]]. discriminate.
  - run_it.
  - run_it.
  - run_it.
Qed.

(** C8, as stated, fails: setting the speed to 0 is accepted, and the clock
    it reaches has multiplier 0. *)
Lemma zero_multiplier_is_reachable :
  reachable Fixture.stopped
  /\ clockOf Fixture.stopped = Some (mkClock 0 0 true)
  /\ (exists c, clockOf Fixture.stopped = Some c /\ (clockMultiplier c == 0)%Q).
Proof.
  split; [apply reachable_run|].
  split; [reflexivity|].
  exists (mkClock 0 0 true). split; reflexivity.
Qed.

(* ================================================================== *)
(** * Part IV. Further properties of the code                          *)
(* ================================================================== *)

(** ** The shape of a parsed catalog *)

Lemma normalize_nonempty (tleData line : string) :
  In line (Loader.normalize tleData) -> JsString.isEmpty line = false.
Proof.
  unfold Loader.normalize. intro H. apply filter_In in H as [_ H].
  now apply negb_true_iff.
Qed.

Lemma parseLoop_blocks (lines : list string)
      (Hlines : forall line, In line lines -> JsString.isEmpty line = false) :
  forall fuel j,
    (List.length lines - 3 * j <= fuel)%nat ->
    Loader.parseLoop fuel lines (3 * j)
    = map (fun k => mkSat (3 * k) (nth (3 * k) lines "")
                          (nth (3 * k + 1) lines "") (nth (3 * k + 2) lines ""))
          (seq j (List.length lines / 3 - j)).
Proof.
  assert (Hdone : forall j, (List.length lines <= 3 * j + 2)%nat ->
                            (List.length lines / 3 - j = 0)%nat).
  { intros j H. assert (List.length lines / 3 < j + 1)%nat; [|lia].
    apply Nat.Div0.div_lt_upper_bound. lia. }
  induction fuel as [|fuel IH]; intros j Hfuel.
  - cbn [Loader.parseLoop]. rewrite Hdone by lia. reflexivity.
  - cbn [Loader.parseLoop].
    destruct (Nat.ltb_spec (3 * j) (List.length lines)) as [Hin|Hout].
    + destruct (Nat.le_gt_cases (List.length lines) (3 * j + 2)) as [Hshort|Hfull].
      * assert (Hnone : nth_error lines (3 * j + 2) = None) by now apply nth_error_None.
        assert (Hrest : Loader.parseLoop fuel lines (3 * j + 3) = []).
        { destruct fuel as [|fuel']; [reflexivity|]. cbn [Loader.parseLoop].
          destruct (Nat.ltb_spec (3 * j + 3) (List.length lines)); [lia | reflexivity]. }
        rewrite Hnone, Hrest, Hdone by lia.
        destruct (nth_error lines (3 * j)); [|reflexivity].
        destruct (nth_error lines (3 * j + 1)); reflexivity.
      * assert (Hdiv : (j < List.length lines / 3)%nat).
        { apply Nat.div_le_lower_bound; lia. }
        destruct (nth_error lines (3 * j)) as [n|] eqn:En;
          [|apply nth_error_None in En; lia].
        destruct (nth_error lines (3 * j + 1)) as [l1|] eqn:E1;
          [|apply nth_error_None in E1; lia].
        destruct (nth_error lines (3 * j + 2)) as [l2|] eqn:E2;
          [|apply nth_error_None in E2; lia].
        rewrite (Hlines n (nth_error_In _ _ En)),
                (Hlines l1 (nth_error_In _ _ E1)),
                (Hlines l2 (nth_error_In _ _ E2)).
        cbn [negb andb].
        replace (3 * j + 3)%nat with (3 * (j + 1))%nat by lia.
        rewrite IH by lia.
        replace (List.length lines / 3 - j)%nat
          with (S (List.length lines / 3 - (j + 1)))%nat by lia.
        cbn [seq map].
        rewrite (nth_error_nth _ _ _ En), (nth_error_nth _ _ _ E1),
                 (nth_error_nth _ _ _ E2).
        replace (S j) with (j + 1)%nat by lia. reflexivity.
    + rewrite Hdone by lia. reflexivity.
Qed.

Lemma parseTLE_as_blocks (tleData : string) :
  Loader.parseTLE tleData
  = map (fun k => mkSat (3 * k) (nth (3 * k) (Loader.normalize tleData) "")
                        (nth (3 * k + 1) (Loader.normalize tleData) "")
                        (nth (3 * k + 2) (Loader.normalize tleData) ""))
        (seq 0 (List.length (Loader.normalize tleData) / 3)).
Proof.
  unfold Loader.parseTLE. cbv zeta.
  change 0%nat with (3 * 0)%nat at 1.
  rewrite (parseLoop_blocks (Loader.normalize tleData))
    by (try lia; intros; now apply (normalize_nonempty tleData)).
  now rewrite Nat.sub_0_r.
Qed.

Lemma parseTLE_ids (tleData : string) :
  map id (Loader.parseTLE tleData)
  = map (fun k => (3 * k)%nat) (seq 0 (List.length (Loader.normalize tleData) / 3)).
Proof. rewrite parseTLE_as_blocks, map_map. reflexivity. Qed.

Lemma parseTLE_ids_NoDup (tleData : string) : NoDup (map id (Loader.parseTLE tleData)).
Proof.
  rewrite parseTLE_ids. apply Finite.Injective_map_NoDup; [|apply seq_NoDup].
  intros a b Hab. lia.
Qed.

(** X1. [parseTLE] cuts the non-blank lines into consecutive blocks of
    three: with [n] such lines it gives exactly [n / 3] records, the [k]-th
    made of lines [3k], [3k+1] and [3k+2] and identified by [3k]; one or two
    lines left at the end are dropped, and no two records share an
    identifier. *)
Theorem parseTLE_blocks (tleData : string) :
  let lines := Loader.normalize tleData in
  Loader.parseTLE tleData
  = map (fun k => mkSat (3 * k) (nth (3 * k) lines "")
                        (nth (3 * k + 1) lines "") (nth (3 * k + 2) lines ""))
        (seq 0 (List.length lines / 3))
  /\ List.length (Loader.parseTLE tleData) = (List.length lines / 3)%nat
  /\ map id (Loader.parseTLE tleData) = map (fun k => (3 * k)%nat) (seq 0 (List.length lines / 3))
  /\ NoDup (map id (Loader.parseTLE tleData)).
Proof.
  intro lines. subst lines.
  split; [apply parseTLE_as_blocks|].
  split; [rewrite parseTLE_as_blocks; now rewrite length_map, length_seq|].
  split; [apply parseTLE_ids | apply parseTLE_ids_NoDup].
Qed.

(** ** Whitespace *)

Lemma string_app_assoc (a b c : string) : ((a ++ b) ++ c = a ++ (b ++ c))%string.
Proof. induction a as [|x a IH]; simpl; [reflexivity | now rewrite IH]. Qed.

Lemma string_app_nil_r (a : string) : (a ++ "" = a)%string.
Proof. induction a as [|x a IH]; simpl; [reflexivity | now rewrite IH]. Qed.

Lemma rev_append_app (s acc : string) :
  JsString.rev_append s acc = (JsString.rev s ++ acc)%string.
Proof.
  unfold JsString.rev. revert acc.
  induction s as [|c r IH]; intro acc; simpl; [reflexivity|].
  rewrite (IH (String c acc)), (IH (String c "")), string_app_assoc. reflexivity.
Qed.

Lemma rev_cons (c : ascii) (r : string) :
  JsString.rev (String c r) = (JsString.rev r ++ String c "")%string.
Proof. unfold JsString.rev at 1. simpl. apply rev_append_app. Qed.

Lemma rev_app (a b : string) :
  JsString.rev (a ++ b) = (JsString.rev b ++ JsString.rev a)%string.
Proof.
  induction a as [|c a IH]; simpl.
  - change (JsString.rev "") with "". now rewrite string_app_nil_r.
  - now rewrite !rev_cons, IH, string_app_assoc.
Qed.

Lemma rev_involutive (s : string) : JsString.rev (JsString.rev s) = s.
Proof.
  induction s as [|c r IH]; [reflexivity|].
  rewrite rev_cons, rev_app, IH. reflexivity.
Qed.

Lemma trimStart_idempotent (s : string) :
  JsString.trimStart (JsString.trimStart s) = JsString.trimStart s.
Proof.
  induction s as [|c r IH]; [reflexivity|]. simpl.
  destruct (JsString.isWhite c) eqn:E; [exact IH|]. simpl. now rewrite E.
Qed.

(** A string that does not start with whitespace keeps that after its
    trailing whitespace is cut. *)
Lemma trimStart_prefix (u v : string) :
  u <> "" -> JsString.trimStart (u ++ v) = (u ++ v)%string -> JsString.trimStart u = u.
Proof.
  destruct u as [|c u]; [contradiction|]. intros _. simpl.
  destruct (JsString.isWhite c) eqn:E; [|reflexivity].
  intro H. exfalso.
  assert (Hlen : forall s, (String.length (JsString.trimStart s) <= String.length s)%nat).
  { induction s as [|x s IHs]; simpl; [lia|]. destruct (JsString.isWhite x); simpl; lia. }
  specialize (Hlen (u ++ v)%string). rewrite H in Hlen. simpl in Hlen. lia.
Qed.

Lemma trimEnd_keeps_start (x : string) :
  JsString.trimStart (JsString.rev x) = JsString.rev x ->
  JsString.trimStart (JsString.rev (JsString.trimStart x))
  = JsString.rev (JsString.trimStart x).
Proof.
  induction x as [|c r IH]; intro H; [reflexivity|]. simpl.
  destruct (JsString.isWhite c) eqn:E; [|exact H].
  apply IH. rewrite rev_cons in H.
  destruct (JsString.rev r) as [|d t] eqn:Er; [reflexivity|].
  rewrite <- Er in *. apply (trimStart_prefix _ (String c "")); [|exact H].
  rewrite Er. discriminate.
Qed.

(** [trim] leaves a trimmed string as it is. *)
Lemma trim_idempotent (s : string) : JsString.trim (JsString.trim s) = JsString.trim s.
Proof.
  unfold JsString.trim.
  set (a := JsString.trimStart s).
  assert (Ha : JsString.trimStart (JsString.rev (JsString.rev a)) = JsString.rev (JsString.rev a)).
  { rewrite rev_involutive. apply trimStart_idempotent. }
  rewrite (trimEnd_keeps_start (JsString.rev a) Ha).
  rewrite rev_involutive, trimStart_idempotent. reflexivity.
Qed.

Lemma normalize_trimmed (tleData line : string) :
  In line (Loader.normalize tleData) -> JsString.trim line = line.
Proof.
  unfold Loader.normalize. intro H. apply filter_In in H as [H _].
  apply in_map_iff in H as (raw & <- & _). apply trim_idempotent.
Qed.

(** X2. Every field of a parsed record (name and both element lines) is a
    non-empty line of the blob with its surrounding whitespace removed: blank
    lines never reach a record, and trimming a field again changes nothing. *)
Theorem parseTLE_fields_trimmed (tleData : string) (sat : Sat)
    (Hsat : In sat (Loader.parseTLE tleData)) :
  (exists raw, In raw (JsString.split newline tleData) /\ name sat = JsString.trim raw)
  /\ (exists raw, In raw (JsString.split newline tleData) /\ line1 sat = JsString.trim raw)
  /\ (exists raw, In raw (JsString.split newline tleData) /\ line2 sat = JsString.trim raw)
  /\ JsString.isEmpty (name sat) = false
  /\ JsString.isEmpty (line1 sat) = false
  /\ JsString.isEmpty (line2 sat) = false
  /\ JsString.trim (name sat) = name sat
  /\ JsString.trim (line1 sat) = line1 sat
  /\ JsString.trim (line2 sat) = line2 sat.
Proof.
  unfold Loader.parseTLE in Hsat. cbv zeta in Hsat.
  apply parseLoop_records in Hsat as (Hn & H1 & H2 & _).
  apply nth_error_In in Hn, H1, H2.
  assert (Hraw : forall line, In line (Loader.normalize tleData) ->
                 exists raw, In raw (JsString.split newline tleData)
                             /\ line = JsString.trim raw).
  { intros line H. unfold Loader.normalize in H. apply filter_In in H as [H _].
    apply in_map_iff in H as (raw & <- & Hraw). now exists raw. }
  repeat split;
    auto using normalize_nonempty, normalize_trimmed.
  all: eauto using normalize_nonempty, normalize_trimmed.
Qed.


(** ** The catalog in the viewer *)

Lemma find_unique (l : list Sat) (sat : Sat) :
  NoDup (map id l) -> In sat l ->
  find (fun s => (id s =? id sat)%nat) l = Some sat.
Proof.
  induction l as [|x l IH]; intros Hnd Hin; [contradiction|].
  simpl in *. inversion Hnd as [|? ? Hx Hl]; subst.
  destruct Hin as [->|Hin].
  - now rewrite Nat.eqb_refl.
  - destruct (Nat.eqb_spec (id x) (id sat)) as [E|_]; [|now apply IH].
    exfalso. apply Hx. rewrite E. now apply in_map.
Qed.

Section CatalogInViewer.
Context {lib : SatelliteJs}.

Lemma select_selects (satId : nat) (wallNow : Z) (st : State) (sat : Sat) :
  find (fun s => (id s =? satId)%nat) (satellites st) = Some sat ->
  selectedSat (selectSatelliteById satId wallNow st) = Some sat.
Proof.
  intro Hfind. unfold selectSatelliteById. rewrite Hfind.
  unfold clearWarning, dropPath, updateInfoPanel, calculatePreciseMovement, with_viewer.
  destruct st; simpl in *. split_tests; reflexivity.
Qed.

(** X3. The first record of every parsed catalog has identifier 0, and for
    identifier 0 [getSatrec] gives no record: that object has no epoch and
    is never out of range, has no marker position and no future path, fails
    the advanced filters, is skipped by the scanner, and selecting it
    samples no path and publishes no telemetry. *)
Theorem first_record_is_never_propagated (tleData : string) (sat : Sat) (rest : list Sat)
    (Hfirst : Loader.parseTLE tleData = sat :: rest) :
  id sat = 0%nat
  /\ getSatrec sat = None
  /\ getTleEpochDate sat = None
  /\ (forall t, isOutOfRange t sat = false)
  /\ getSimpleCallback sat = None
  /\ getDynamicFuturePath sat = None
  /\ (forall f now, passesAdvanced f now sat = false)
  /\ (forall target range t, scanOne target range t sat = None)
  /\ (forall st, calculatePreciseMovement sat st = st)
  /\ (forall st, updateInfoPanel sat st = st).
Proof.
  assert (Hid : id sat = 0%nat).
  { assert (H := parseTLE_ids tleData). rewrite Hfirst in H.
    destruct (List.length (Loader.normalize tleData) / 3)%nat; [discriminate|].
    simpl in H. now injection H. }
  assert (Hrec : getSatrec sat = None).
  { unfold getSatrec. now rewrite Hid. }
  split; [exact Hid|]. split; [exact Hrec|].
  unfold getTleEpochDate, isOutOfRange, getTleEpochDate, getSimpleCallback,
    getDynamicFuturePath, passesAdvanced, scanOne, calculatePreciseMovement,
    updateInfoPanel.
  rewrite Hrec. repeat split.
  - intro st. now destruct (viewer st).
  - intro st. now destruct (viewer st).
Qed.

(** X4. In a catalog that came from [parseTLE], an identifier names one
    record: looking a record's identifier up finds that record, and
    [selectSatelliteById] with it selects that record. *)
Theorem parsed_catalog_lookup (tleData : string) (wallNow : Z) (st : State) (sat : Sat)
    (Hcatalog : satellites st = Loader.parseTLE tleData)
    (Hsat : In sat (satellites st)) :
  find (fun s => (id s =? id sat)%nat) (satellites st) = Some sat
  /\ selectedSat (selectSatelliteById (id sat) wallNow st) = Some sat.
Proof.
  assert (Hfind : find (fun s => (id s =? id sat)%nat) (satellites st) = Some sat).
  { apply find_unique; [|exact Hsat]. rewrite Hcatalog. apply parseTLE_ids_NoDup. }
  split; [exact Hfind | now apply select_selects].
Qed.

End CatalogInViewer.

(** ** Clock controls and the date input *)

Lemma isEmpty_true (s : string) : JsString.isEmpty s = true -> s = "".
Proof. destruct s; [reflexivity | discriminate]. Qed.

Section ClockControls.
Context {lib : SatelliteJs}.

(** X5. [togglePlay] flips the running flag of the clock and keeps its
    instant and multiplier; after it the pause indicator always mirrors the
    clock; two toggles give the clock back, and the whole state when the
    indicator mirrored the clock to begin with. *)
Theorem togglePlay_twice (st : State) (v : Viewer) (Hviewer : viewer st = Some v) :
  let c := clock v in
  let st1 := togglePlay st in
  let st2 := togglePlay st1 in
  clockOf st1 = Some (mkClock (currentTime c) (clockMultiplier c) (negb (shouldAnimate c)))
  /\ isPaused st1 = shouldAnimate c
  /\ clockOf st2 = Some c
  /\ isPaused st2 = negb (shouldAnimate c)
  /\ (isPaused st = negb (shouldAnimate c) -> st2 = st).
Proof.
  unfold togglePlay, clockOf.
  destruct st as [? ? ? ? ? ? ? ? vw ? ? ? ? ? ? ? paused ?]; simpl in *. subst vw.
  destruct v as [[t m anim] tracked]; simpl.
  rewrite !negb_involutive. repeat split.
  intros ->. reflexivity.
Qed.

Lemma clampDate_in_range (t wallNow : Z) (st : State) :
  match selectedSat st with
  | Some sel => isOutOfRange (clampDate t wallNow st) sel
  | None => false
  end = false.
Proof.
  destruct (selectedSat st) as [sel|] eqn:Hsel; [|reflexivity].
  unfold isOutOfRange.
  destruct (getTleEpochDate sel) as [epoch|] eqn:He; [|reflexivity].
  destruct (clampDate_upper t wallNow st) as (_ & _ & H).
  specialize (H sel epoch Hsel He). cbv zeta. apply Z.ltb_ge. exact H.
Qed.

(** X6. Whatever date is entered, [handleDateChange] never leaves the
    out-of-range flag raised: the instant it installs is within the window of
    the selected object, so the flag is lowered, the warning cleared, and
    the history path of a selected object sampled afresh around that instant.
    It also sets the clock running, but leaves the pause indicator as it was. *)
Theorem date_change_resets_validity (t wallNow : Z) (st : State) (v : Viewer)
    (Hviewer : viewer st = Some v) :
  let st' := handleDateChange t wallNow st in
  let installed := clampDate t wallNow st in
  isTleOutOfRange st' = false
  /\ tleWarning st' = ""
  /\ clockOf st' = Some (mkClock installed (clockMultiplier (clock v)) true)
  /\ isPaused st' = isPaused st
  /\ selectedSat st' = selectedSat st
  /\ (forall sel satrec,
         selectedSat st = Some sel -> getSatrec sel = Some satrec ->
         selectedSatPath st' = Some (historySamples satrec installed)
         /\ selectedSatPathRef st' = Some (historySamples satrec installed))
  /\ (selectedSat st = None ->
      selectedSatPath st' = selectedSatPath st
      /\ selectedSatPathRef st' = selectedSatPathRef st).
Proof.
  intros st' installed. subst st' installed.
  assert (Hout := clampDate_in_range t wallNow st).
  unfold handleDateChange. rewrite Hviewer.
  set (installed := clampDate t wallNow st) in *. cbv zeta. rewrite Hout.
  unfold clearWarning, calculatePreciseMovement, clockOf.
  destruct st as [? sel ? ? ? ? warning ? vw ? ? ? ? ? ? ? ? ?]; simpl in *. subst vw.
  clearbody installed.
  assert (Hwarn : (if JsString.isEmpty warning then warning else "") = "").
  { destruct (JsString.isEmpty warning) eqn:Hw; [now apply isEmpty_true | reflexivity]. }
  destruct sel as [sel|]; simpl.
  - destruct (getSatrec sel) as [satrec|] eqn:Hrec; simpl;
      destruct (JsString.isEmpty warning) eqn:Hw; simpl;
      (split; [reflexivity|]); (split; [exact Hwarn|]);
      (split; [reflexivity|]); (split; [reflexivity|]); (split; [reflexivity|]);
      (split; [|discriminate]);
      intros sel' satrec' Hs Hr; injection Hs as <-; rewrite Hrec in Hr;
      try discriminate; injection Hr as <-; split; reflexivity.
  - destruct (JsString.isEmpty warning) eqn:Hw; simpl;
      (split; [reflexivity|]); (split; [exact Hwarn|]);
      (split; [reflexivity|]); (split; [reflexivity|]); (split; [reflexivity|]);
      (split; [discriminate|]); intros _; split; reflexivity.
Qed.

(** X7. The clamping of the date input is a minimum: the requested instant,
    the global ceiling of 30 days after the wall clock and, with an object
    selected whose epoch is known, 30 days after that epoch.  So clamping
    twice is clamping once, and a later request never installs an earlier
    instant. *)
Theorem clampDate_is_min (t1 t2 wallNow : Z) (st : State) (Hle : t1 <= t2) :
  let horizon := MAX_FUTURE_DAYS * dayMs in
  clampDate t1 wallNow st
  = match selectedSat st with
    | Some sel =>
        match getTleEpochDate sel with
        | Some epoch => Z.min (Z.min t1 (epoch + horizon)) (wallNow + horizon)
        | None => Z.min t1 (wallNow + horizon)
        end
    | None => Z.min t1 (wallNow + horizon)
    end
  /\ clampDate (clampDate t1 wallNow st) wallNow st = clampDate t1 wallNow st
  /\ clampDate t1 wallNow st <= clampDate t2 wallNow st.
Proof.
  intro horizon.
  assert (Hmin : forall limit x, (if limit <? x then limit else x) = Z.min x limit).
  { intros limit x. destruct (Z.ltb_spec limit x); lia. }
  unfold clampDate. fold horizon.
  destruct (selectedSat st) as [sel|]; [destruct (getTleEpochDate sel) as [epoch|]|];
    cbv zeta; rewrite !Hmin; lia.
Qed.

End ClockControls.

(** ** The cadence of the tick listener *)

Section Cadence.
Context {lib : SatelliteJs}.

Lemma refreshSelection_stamp (clk : Clock) (nowMs : Z) (st : State) :
  lastTickTime (refreshSelection clk nowMs st) = nowMs.
Proof.
  unfold refreshSelection, clearWarning, dropPath, updateInfoPanel,
    calculatePreciseMovement.
  by_cases_on st.
Qed.

(** A tick within one second of the last refresh, and within two seconds of
    the last scan or without a ground target, changes nothing. *)
Lemma onTick_idle (nowMs : Z) (st : State) :
  nowMs - lastTickTime st <= 1000 ->
  groundTarget st = None \/ nowMs - lastScannerCheck st <= 2000 ->
  onTick nowMs st = st.
Proof.
  intros Hui Hscan. unfold onTick.
  destruct (viewer st) as [v|]; [|reflexivity].
  apply Z.ltb_ge in Hui. rewrite Hui.
  destruct (groundTarget st) as [target|]; [|reflexivity].
  destruct Hscan as [Hscan|Hscan]; [discriminate|].
  apply Z.ltb_ge in Hscan. now rewrite Hscan.
Qed.

(** X8. The listener throttles itself: after a tick that refreshed the
    selection (and ran the scanner, when there is a ground target), any
    number of ticks within the next second change nothing at all; the
    selection is refreshed at most once per second and the sky scanned at
    most once per two seconds of wall time. *)
Theorem tick_cadence (n1 n2 : Z) (st : State) (v : Viewer)
    (Hviewer : viewer st = Some v)
    (Hrefresh : 1000 < n1 - lastTickTime st)
    (Hscan : groundTarget st = None \/ 2000 < n1 - lastScannerCheck st)
    (Hsoon : n2 - n1 <= 1000) :
  lastTickTime (onTick n1 st) = n1
  /\ (groundTarget st <> None -> lastScannerCheck (onTick n1 st) = n1)
  /\ onTick n2 (onTick n1 st) = onTick n1 st.
Proof.
  assert (Hstamp : lastTickTime (onTick n1 st) = n1
                   /\ groundTarget (onTick n1 st) = groundTarget st
                   /\ (groundTarget st <> None -> lastScannerCheck (onTick n1 st) = n1)).
  { unfold onTick. rewrite Hviewer.
    apply Z.ltb_lt in Hrefresh. rewrite Hrefresh. cbv zeta.
    assert (Hs := refreshSelection_stamp (clock v) n1 st).
    destruct (refreshSelection_frame (clock v) n1 st) as ((_ & _ & _ & _ & Hg) & _).
    destruct (groundTarget st) as [target|] eqn:Ht.
    - destruct Hscan as [Hscan|Hscan]; [discriminate|].
      apply Z.ltb_lt in Hscan. rewrite Hscan.
      destruct (refreshSelection (clock v) n1 st); simpl in *.
      repeat split; assumption.
    - repeat split; try assumption. intro H. contradiction. }
  destruct Hstamp as (H1 & H2 & H3).
  split; [exact H1|]. split; [exact H3|].
  apply onTick_idle.
  - rewrite H1. exact Hsoon.
  - rewrite H2. destruct (groundTarget st) as [target|] eqn:Ht; [|now left].
    right. rewrite H3 by discriminate. lia.
Qed.

End Cadence.

(** ** Invariants of the selection *)

Ltac unfold_handlers :=
  unfold selectSatelliteById, autoDeselect, clearSelection, trackingEffect,
    onTick, refreshSelection, togglePlay, setSpeed, handleDateChange,
    clearWarning, dropPath, updateInfoPanel, calculatePreciseMovement,
    with_viewer, advanceClock, set_trackedEntity, set_clock.

Section SelectionInvariants.
Context {lib : SatelliteJs}.

Lemma step_path_ref (st : State) (e : Event) :
  selectedSatPath st = selectedSatPathRef st ->
  selectedSatPath (step st e) = selectedSatPathRef (step st e).
Proof.
  destruct e; simpl; unfold_handlers;
    destruct st; simpl in *; split_tests; intro H; subst; reflexivity.
Qed.

(** X9. The path cell and the ref that mirrors it never differ: in every
    reachable state [selectedSatPath] and [selectedSatPathRef.current] hold
    the same value, so what is drawn never depends on which of the two is
    read. *)
Theorem path_and_ref_agree (st : State) (Hreach : reachable st) :
  selectedSatPath st = selectedSatPathRef st
  /\ renderSelected st
     = match selectedSat st with
       | Some sel =>
           if negb (isSelectionInFilter st) then NothingDrawn
           else if isTleOutOfRange st then SimpleEntity (getSimpleCallback sel)
           else match selectedSatPath st with
                | Some path => ComplexEntity path (getDynamicFuturePath sel)
                | None => NothingDrawn
                end
       | None => NothingDrawn
       end.
Proof.
  assert (H : selectedSatPath st = selectedSatPathRef st).
  { induction Hreach as [now | st e _ IH]; [reflexivity | now apply step_path_ref]. }
  split; [exact H|].
  unfold renderSelected. rewrite <- H.
  destruct (selectedSat st); [|reflexivity].
  destruct (negb (isSelectionInFilter st)); [reflexivity|].
  destruct (isTleOutOfRange st); [reflexivity|].
  now destruct (selectedSatPath st).
Qed.

Lemma step_idle (st : State) (e : Event) :
  viewer st <> None ->
  (selectedSat st = None ->
   selectedSatPath st = None /\ isTracked st = false /\ selectedSatData st = None
   /\ option_map trackedEntity (viewer st) = Some None) ->
  selectedSat (step st e) = None ->
  selectedSatPath (step st e) = None /\ isTracked (step st e) = false
  /\ selectedSatData (step st e) = None
  /\ option_map trackedEntity (viewer (step st e)) = Some None.
Proof.
  destruct e; simpl; unfold_handlers;
    destruct st; simpl in *; split_tests; intros Hviewer Hidle Hnone;
    try discriminate; try contradiction; subst;
    try (specialize (Hidle eq_refl); destruct Hidle as (H1 & H2 & H3 & H4);
         simpl in *; try discriminate; subst);
    repeat split; try reflexivity; try assumption; try discriminate;
    try (simpl in *; congruence).
Qed.

(** X10. IDLE is clean: in every reachable state in which no object is
    selected there is no sampled path, the follow flag is off, the camera
    tracks no entity and the panel has no telemetry. *)
Theorem idle_is_clean (st : State) (Hreach : reachable st) (Hidle : selectedSat st = None) :
  selectedSatPath st = None
  /\ selectedSatPathRef st = None
  /\ isTracked st = false
  /\ selectedSatData st = None
  /\ option_map trackedEntity (viewer st) = Some None
  /\ renderSelected st = NothingDrawn.
Proof.
  assert (H : selectedSat st = None ->
              selectedSatPath st = None /\ isTracked st = false
              /\ selectedSatData st = None
              /\ option_map trackedEntity (viewer st) = Some None).
  { clear Hidle. induction Hreach as [now | st e Hr IH].
    - intros _. repeat split.
    - apply step_idle; [now apply reachable_viewer | exact IH]. }
  destruct (H Hidle) as (H1 & H2 & H3 & H4).
  assert (Href : selectedSatPath st = selectedSatPathRef st).
  { clear - Hreach. induction Hreach as [now | st e _ IH];
      [reflexivity | now apply step_path_ref]. }
  repeat split; try assumption.
  - now rewrite <- Href.
  - unfold renderSelected. now rewrite Hidle.
Qed.

End SelectionInvariants.

(** ** From the intercept list to a selection *)

Section Composition.
Context {lib : SatelliteJs}.

Lemma firstn_In_list {A : Type} (n : nat) (l : list A) (a : A) :
  In a (firstn n l) -> In a l.
Proof.
  revert l. induction n as [|n IH]; intros [|x l] H; simpl in *; try contradiction.
  destruct H as [->|H]; [now left | right; now apply IH].
Qed.

Lemma subsetToCheck_in_catalog (st : State) (sat : Sat) :
  In sat (subsetToCheck st) -> In sat (satellites st).
Proof.
  destruct (subsetToCheck_catalog_order st) as [keep ->].
  intro H. apply firstn_In_list in H. now apply filter_In in H.
Qed.

Lemma onTick_catalog (nowMs : Z) (st : State) :
  satellites (onTick nowMs st) = satellites st.
Proof.
  unfold onTick. destruct (viewer st) as [v|]; [|reflexivity].
  assert (H : satellites (if 1000 <? nowMs - lastTickTime st
                          then refreshSelection (clock v) nowMs st else st)
              = satellites st).
  { destruct (1000 <? nowMs - lastTickTime st); [|reflexivity].
    apply refreshSelection_frame. }
  destruct (groundTarget st); [destruct (2000 <? nowMs - lastScannerCheck st)|];
    try exact H.
  destruct (if 1000 <? nowMs - lastTickTime st
            then refreshSelection (clock v) nowMs st else st); simpl in *. exact H.
Qed.

(** X11. Every row of the intercept list can be selected: after a tick on
    which the scanner ran, clicking any row selects an object of the catalog
    carrying the row's identifier, and that object has a propagation record
    (it was propagated by the scan), so the selection is never an empty one. *)
Theorem intercept_rows_are_selectable (nowMs wallNow : Z) (st : State) (v : Viewer)
    (target : GroundTarget) (entry : Intercept)
    (Hviewer : viewer st = Some v)
    (Htarget : groundTarget st = Some target)
    (Hdue : 2000 < nowMs - lastScannerCheck st)
    (Hrow : In entry (intercepts (onTick nowMs st))) :
  exists sat,
    selectedSat (selectSatelliteById (interceptId entry) wallNow (onTick nowMs st)) = Some sat
    /\ id sat = interceptId entry
    /\ In sat (satellites st)
    /\ exists scanned satrec,
         In scanned (subsetToCheck st) /\ id scanned = interceptId entry
         /\ name scanned = interceptName entry
         /\ getSatrec scanned = Some satrec.
Proof.
  destruct (onTick_intercepts nowMs st v target Hviewer Htarget Hdue) as [Hi _].
  rewrite Hi in Hrow. apply in_map_iff in Hrow as (x & <- & Hx).
  apply (Permutation_in _ (Permutation_sym (sortByDistance_perm _))) in Hx.
  apply scanAll_In in Hx as (scanned & Hscanned & Hone).
  apply scanOne_entry in Hone as (Hname & Hid & _ & satrec & _ & _ & Hrec & _).
  assert (Hin : In (foundId x) (map id (satellites (onTick nowMs st)))).
  { rewrite onTick_catalog, Hid. apply in_map. now apply subsetToCheck_in_catalog. }
  destruct (find (fun s => (id s =? foundId x)%nat) (satellites (onTick nowMs st)))
    as [sat|] eqn:Hfind.
  - exists sat. split; [now apply select_selects|].
    apply find_id in Hfind as [Hsat Hsid]. rewrite onTick_catalog in Hsat.
    split; [exact Hsid|]. split; [exact Hsat|].
    exists scanned, satrec. simpl. now repeat split.
  - apply find_id_none in Hfind. contradiction.
Qed.

(** X12. Follow mode survives a change of selection: with the follow flag
    on, selecting another object of the filtered view that has a record
    leaves the flag on, and once the tracking effect has run the camera
    follows the new object, on its sampled path when it is in range and on
    its plain marker when it is not. *)
Theorem follow_survives_selection (satId : nat) (wallNow : Z) (st : State)
    (sat : Sat) (v : Viewer) (satrec : Satrec)
    (Hfind : find (fun s => (id s =? satId)%nat) (satellites st) = Some sat)
    (Hviewer : viewer st = Some v)
    (Hrec : getSatrec sat = Some satrec)
    (Hvisible : In satId (map id (filteredSatellites st)))
    (Hfollow : isTracked st = true) :
  let st1 := selectSatelliteById satId wallNow st in
  let st2 := trackingEffect st1 in
  option_map trackedEntity (viewer st1) = Some None
  /\ isTracked st2 = true
  /\ selectedSat st2 = Some sat
  /\ option_map trackedEntity (viewer st2)
     = Some (Some (if isOutOfRange (currentTime (clock v)) sat
                   then SelectedSatSimple else SelectedSatComplex)).
Proof.
  intros st1 st2.
  destruct (select_found satId wallNow st sat v Hfind Hviewer)
    as (Hsel & Hflag & Hpath & _ & _ & Hv1 & Hview & Htr).
  fold st1 in Hsel, Hflag, Hpath, Hv1, Hview, Htr.
  rewrite Hrec in Hpath. rewrite Hfollow in Htr.
  assert (Hin : isSelectionInFilter st1 = true).
  { unfold isSelectionInFilter. rewrite Hsel. apply existsb_id.
    rewrite (filteredSatellites_ext st1 st Hview).
    apply find_id in Hfind as [_ ->]. exact Hvisible. }
  assert (Hrender : renderSelected st1
                    = if isOutOfRange (currentTime (clock v)) sat
                      then SimpleEntity (getSimpleCallback sat)
                      else ComplexEntity (historySamples satrec (currentTime (clock v)))
                                         (getDynamicFuturePath sat)).
  { unfold renderSelected. rewrite Hsel, Hin, Hflag, Hpath. simpl.
    now destruct (isOutOfRange (currentTime (clock v)) sat). }
  split; [now rewrite Hv1|].
  subst st2. unfold trackingEffect. rewrite Hsel, Htr, Hrender.
  unfold with_viewer. rewrite Hv1.
  destruct (isOutOfRange (currentTime (clock v)) sat);
    destruct st1; simpl in *; repeat split; assumption.
Qed.

Lemma clearSelection_view (st : State) :
  filteredSatellites (clearSelection st) = filteredSatellites st.
Proof. apply filteredSatellites_ext. apply clearSelection_spec. Qed.




Lemma forRange_head (lo hi step : Z) :
  0 < step -> lo <= hi ->
  exists rest, forRange lo hi step = lo :: rest.
Proof.
  intros Hstep Hle. unfold forRange.
  assert (H : 0 <= (hi - lo) / step) by (apply Z.div_pos; lia).
  destruct (Z.to_nat ((hi - lo) / step + 1)) as [|n] eqn:E; [lia|].
  cbn [seq map]. eexists. f_equal. lia.
Qed.

(** X14. The three views of one object agree where they meet: whenever the
    marker callback gives a position at an instant, the future path asked at
    that instant starts with that position, and the history path sampled
    around that instant holds it at its centre. *)
Theorem paths_meet_the_marker (sat : Sat) (t : Z) (cart : Cartesian3)
    (marker : Z -> option Cartesian3)
    (Hmarker : getSimpleCallback sat = Some marker)
    (Hposition : marker t = Some cart) :
  exists satrec future,
    getSatrec sat = Some satrec
    /\ getDynamicFuturePath sat = Some future
    /\ hd_error (future t) = Some cart
    /\ In (t, cart) (historySamples satrec t).
Proof.
  unfold getSimpleCallback, getDynamicFuturePath in *.
  destruct (getSatrec sat) as [satrec|]; [|discriminate].
  simpl in *. injection Hmarker as <-.
  exists satrec, (futurePositions satrec). repeat split.
  - unfold futurePositions.
    destruct (forRange_head 0 90 1) as [rest ->]; [lia | lia |].
    cbn [flat_map]. replace (t + 0 * minuteMs) with t by lia.
    rewrite Hposition. reflexivity.
  - apply historySamples_In. exists 120. split; [lia|].
    replace (t + (2 * 120 - 240) * minuteMs) with t by lia.
    split; [reflexivity | exact Hposition].
Qed.

End Composition.

(** ** The telemetry panel *)

Lemma Qle_bool_false (x y : Q) : Qle_bool x y = false <-> (y < x)%Q.
Proof.
  split; intro H.
  - apply Qnot_le_lt. intro Hle. apply Qle_bool_iff in Hle. congruence.
  - destruct (Qle_bool x y) eqn:E; [|reflexivity].
    apply Qle_bool_iff in E. exfalso. exact (Qlt_not_le _ _ H E).
Qed.

Ltac q_cases :=
  repeat match goal with
         | |- context [Qle_bool ?x ?y] =>
             innermost_test x; innermost_test y;
             let E := fresh "E" in
             destruct (Qle_bool x y) eqn:E;
             [apply Qle_bool_iff in E | apply Qle_bool_false in E]
         end.

(** X15. The freshness bar of the panel is always between empty and full:
    for a finite age the normalised value is within [0, 1] and the bar width
    within [0, 100] percent; the bar is full exactly for ages up to 0 and
    empty exactly from 30 days on, which is exactly when the label is OLD and
    the badge DEGRADED ORBIT; the badge is ACTIVE TRACKING exactly for the
    labels FRESH and STABLE and LOW CONFIDENCE exactly for STALE. *)
Theorem panel_bar_and_badge (d : Q) :
  let u := Panel.derive (Some (Fin d)) in
  exists p w,
    Panel.pct u = Fin p /\ (0 <= p <= 1)%Q
    /\ Panel.barWidth u = Fin w /\ (0 <= w <= 100)%Q
    /\ (w == 100 <-> d <= 0)%Q
    /\ (w == 0 <-> 30 <= d)%Q
    /\ (Panel.label u = Panel.OLD <-> (30 <= d)%Q)
    /\ (Panel.status u = Panel.DEGRADED_ORBIT <-> Panel.label u = Panel.OLD)
    /\ (Panel.status u = Panel.ACTIVE_TRACKING <->
        Panel.label u = Panel.FRESH \/ Panel.label u = Panel.STABLE)
    /\ (Panel.status u = Panel.LOW_CONFIDENCE <-> Panel.label u = Panel.STALE).
Proof.
  unfold Panel.derive, Panel.barWidth, num_max, num_min, num_div, num_ltb. simpl.
  assert (Hx : (d == 30 * (d / 30))%Q) by field.
  set (x := (d / 30)%Q) in *. clearbody x.
  eexists. eexists. split; [reflexivity|].
  split; [|split; [reflexivity|]].
  - q_cases; split; lra.
  - q_cases; simpl; repeat split; intros; try lra; try discriminate;
      try (exfalso; lra);
      repeat match goal with
             | H : _ \/ _ |- _ => destruct H
             end; try discriminate; auto.
Qed.

Lemma Qfloor_lt_Z (x : Q) (z : Z) : (Qfloor x < z)%Z <-> (x < inject_Z z)%Q.
Proof.
  split; intro H.
  - apply Qlt_le_trans with (inject_Z (Qfloor x + 1)); [apply Qlt_floor|].
    rewrite <- Zle_Qle. lia.
  - rewrite Zlt_Qlt. apply Qle_lt_trans with x; [apply Qfloor_le | exact H].
Qed.

(** The two-decimal rounding of an age against a whole number of days. *)
Lemma rounded_age_lt (a : Q) (days : Z) :
  0 < days ->
  num_ltb (toFixed 2 (Fin a)) (Fin (inject_Z days)) = true
  <-> (a < inject_Z days - (1 # 200))%Q.
Proof.
  intro Hdays. unfold toFixed. rewrite num_ltb_Fin.
  assert (Hscale : (inject_Z (toFixedZ 2 a) / inject_Z (10 ^ Z.of_nat 2)
                    < inject_Z days)%Q
                   <-> toFixedZ 2 a < 100 * days).
  { change (10 ^ Z.of_nat 2) with 100.
    rewrite Zlt_Qlt, inject_Z_mult. split; intro H.
    - apply Qmult_lt_r with (z := (/ inject_Z 100)%Q); [reflexivity|].
      setoid_replace (inject_Z 100 * inject_Z days * / inject_Z 100)%Q
        with (inject_Z days) by field. exact H.
    - apply Qmult_lt_r with (z := (/ inject_Z 100)%Q) in H; [|reflexivity].
      setoid_replace (inject_Z 100 * inject_Z days * / inject_Z 100)%Q
        with (inject_Z days) in H by field. exact H. }
  rewrite Hscale. unfold toFixedZ. change (10 ^ Z.of_nat 2) with 100.
  assert (Hdq : (inject_Z 1 <= inject_Z days)%Q) by (rewrite <- Zle_Qle; lia).
  change (inject_Z 1) with 1%Q in Hdq.
  destruct (Qle_bool 0 a) eqn:E.
  - apply Qle_bool_iff in E.
    rewrite Qfloor_lt_Z, inject_Z_mult, (Qabs_pos a E).
    change (inject_Z 100) with 100%Q. split; intro H; lra.
  - apply Qle_bool_false in E.
    assert (Hfloor : 0 <= Qfloor (Qabs a * inject_Z 100 + (1 # 2))).
    { change 0 with (Qfloor 0). apply Qfloor_resp_le.
      assert (H := Qabs_nonneg a). change (inject_Z 100) with 100%Q. lra. }
    split; intro H; [lra | lia].
Qed.


(** ** The search box and the advanced filters *)

Lemma upper_spec (c : ascii) :
  JsString.isWhite (JsString.upper c) = JsString.isWhite c
  /\ JsString.upper (JsString.upper c) = JsString.upper c.
Proof.
  destruct c as [b0 b1 b2 b3 b4 b5 b6 b7].
  destruct b0, b1, b2, b3, b4, b5, b6, b7; split; reflexivity.
Qed.

Lemma toUpperCase_idempotent (s : string) :
  JsString.toUpperCase (JsString.toUpperCase s) = JsString.toUpperCase s.
Proof.
  induction s as [|c r IH]; [reflexivity|].
  cbn [JsString.toUpperCase]. now rewrite IH, (proj2 (upper_spec c)).
Qed.

Lemma trimStart_upper (s : string) :
  JsString.trimStart (JsString.toUpperCase s)
  = JsString.toUpperCase (JsString.trimStart s).
Proof.
  induction s as [|c r IH]; [reflexivity|].
  cbn [JsString.toUpperCase JsString.trimStart].
  rewrite (proj1 (upper_spec c)). now destruct (JsString.isWhite c).
Qed.

Lemma rev_append_upper (s acc : string) :
  JsString.rev_append (JsString.toUpperCase s) (JsString.toUpperCase acc)
  = JsString.toUpperCase (JsString.rev_append s acc).
Proof.
  revert acc. induction s as [|c r IH]; intro acc; [reflexivity|].
  cbn [JsString.toUpperCase JsString.rev_append].
  apply (IH (String c acc)).
Qed.

Lemma trim_upper (s : string) :
  JsString.trim (JsString.toUpperCase s) = JsString.toUpperCase (JsString.trim s).
Proof.
  unfold JsString.trim, JsString.rev.
  rewrite trimStart_upper.
  rewrite (rev_append_upper _ ""), trimStart_upper.
  apply (rev_append_upper _ "").
Qed.

Lemma isEmpty_upper (s : string) :
  JsString.isEmpty (JsString.toUpperCase s) = JsString.isEmpty s.
Proof. now destruct s. Qed.

Section Filtering.
Context {lib : SatelliteJs}.

(** X17. The name search ignores the case of the query and the whitespace
    around it: typing the query in upper case, or already trimmed, gives the
    same filtered view; and a query that is empty or only whitespace does
    not filter by name at all. *)
Theorem search_ignores_case_and_padding (st : State) (term : string) :
  let f := filters st in
  let viewWith q :=
    filteredSatellites
      (set_filters (mkFilters q (showAdvFilters f) (filterAlt f) (filterVel f))
                   (filterMemoTime st) st) in
  viewWith (searchTerm f) = filteredSatellites st
  /\ viewWith (JsString.toUpperCase (searchTerm f)) = filteredSatellites st
  /\ viewWith (JsString.trim (searchTerm f)) = filteredSatellites st
  /\ (JsString.trim term = "" ->
      filteredSatellites
        (set_filters (mkFilters term false (filterAlt f) (filterVel f))
                     (filterMemoTime st) st)
      = satellites st).
Proof.
  intros f viewWith. subst f viewWith.
  unfold filteredSatellites.
  destruct st as [sats ? ? ? ? ? ? ? ? [q adv alt vel] memo ? ? ? ? ? ? ?].
  cbn [set_filters satellites filters filterMemoTime searchTerm showAdvFilters
       filterAlt filterVel].
  split; [reflexivity|].
  split; [|split].
  - rewrite trim_upper, isEmpty_upper, toUpperCase_idempotent. reflexivity.
  - rewrite trim_idempotent. reflexivity.
  - intros ->. reflexivity.
Qed.


End Filtering.

(** ** Effects that settle, lists that are replaced, labels that agree *)

Section Settling.
Context {lib : SatelliteJs}.

(** X19. The auto-deselect effect settles in one run: after it, either
    nothing is selected or the selection is in the filtered view, the filtered
    view itself is unchanged, and running the effect again changes nothing. *)
Theorem autoDeselect_settles (st : State) :
  (selectedSat (autoDeselect st) = None \/ isSelectionInFilter (autoDeselect st) = true)
  /\ filteredSatellites (autoDeselect st) = filteredSatellites st
  /\ autoDeselect (autoDeselect st) = autoDeselect st.
Proof.
  assert (Hcase : (autoDeselect st = st
                   /\ (selectedSat st = None \/ isSelectionInFilter st = true))
                  \/ autoDeselect st = clearSelection st).
  { unfold autoDeselect, isSelectionInFilter.
    destruct (selectedSat st) as [sel|]; [|left; split; [reflexivity | now left]].
    destruct (existsb (fun s => (id s =? id sel)%nat) (filteredSatellites st));
      [left; split; [reflexivity | now right] | now right]. }
  destruct Hcase as [[-> Hin] | ->].
  - split; [exact Hin|]. split; [reflexivity|].
    destruct Hin as [Hnone|Hin]; [|now apply autoDeselect_visible].
    unfold autoDeselect. now rewrite Hnone.
  - destruct (clearSelection_spec st) as (H1 & _).
    split; [now left|]. split; [apply clearSelection_view|].
    unfold autoDeselect. now rewrite H1.
Qed.

Lemma scanFound_ext (clk : Clock) (target : GroundTarget) (a b : State) :
  sameCatalogView a b -> scanFound clk target a = scanFound clk target b.
Proof.
  intro H. assert (Hf := filteredSatellites_ext a b H).
  destruct H as (Hs & _ & _ & Hr & _).
  unfold scanFound, subsetToCheck. now rewrite Hf, Hs, Hr.
Qed.

(** X20. A scan replaces the intercept list, it does not add to it: on a
    tick on which the scanner runs, the list installed does not depend on
    the list that was there, and a scan that finds nothing empties it. *)
Theorem scan_replaces_intercepts (nowMs : Z) (st : State) (v : Viewer)
    (target : GroundTarget) (previous : list Intercept)
    (Hviewer : viewer st = Some v)
    (Htarget : groundTarget st = Some target)
    (Hdue : 2000 < nowMs - lastScannerCheck st) :
  intercepts (onTick nowMs (set_intercepts previous st)) = intercepts (onTick nowMs st)
  /\ List.length (intercepts (onTick nowMs st))
     = List.length (scanAll target (scanRadius st * 1000)%Q (currentTime (clock v))
                            (subsetToCheck st))
  /\ (scanAll target (scanRadius st * 1000)%Q (currentTime (clock v)) (subsetToCheck st) = [] ->
      intercepts (onTick nowMs st) = []).
Proof.
  destruct (onTick_intercepts nowMs st v target Hviewer Htarget Hdue) as [Hi _].
  assert (Hsame : sameCatalogView (set_intercepts previous st) st).
  { destruct st; simpl. repeat split. }
  assert (Hi' : intercepts (onTick nowMs (set_intercepts previous st))
                = map toIntercept (scanFound (clock v) target (set_intercepts previous st))).
  { apply onTick_intercepts; destruct st; simpl in *; assumption. }
  split; [rewrite Hi', Hi; now rewrite (scanFound_ext _ _ _ _ Hsame)|].
  rewrite Hi. unfold scanFound. split.
  - rewrite length_map. symmetry. apply Permutation_length, sortByDistance_perm.
  - intros ->. reflexivity.
Qed.

(** X21. The warning and the labels agree: whenever an object is out of
    range at an instant (more than 30 days after its epoch), its age label at
    that instant is VERY OLD, and the panel, given the age rounded as
    [updateInfoPanel] publishes it, shows OLD with the badge DEGRADED ORBIT
    and an empty freshness bar. *)
Theorem out_of_range_is_very_old (t : Z) (sat : Sat) (satrec : Satrec)
    (Hrec : getSatrec sat = Some satrec)
    (Hout : isOutOfRange t sat = true) :
  let age := tleAgeDaysAt t satrec in
  let shown := Panel.derive (Some (toFixed 2 age)) in
  tleAgeLabelOf age = VERY_OLD
  /\ Panel.label shown = Panel.OLD
  /\ Panel.status shown = Panel.DEGRADED_ORBIT
  /\ Panel.barWidth shown = Fin ((1 - 1) * 100)%Q.
Proof.
  intros age shown. subst age shown.
  unfold isOutOfRange, getTleEpochDate in Hout. rewrite Hrec in Hout.
  unfold tleAgeDaysAt.
  destruct (epochMs satrec) as [epoch|]; [|discriminate].
  cbv zeta in Hout. apply Z.ltb_lt in Hout. unfold MAX_FUTURE_DAYS in Hout.
  set (a := (inject_Z (t - epoch) / inject_Z dayMs)%Q).
  assert (Ha : (30 <= a)%Q).
  { change 30%Q with (inject_Z 30). apply days_le_age. lia. }
  assert (V : forall days, (days <= 30)%Q -> num_ltb (Fin a) (Fin days) = false).
  { intros days Hd. apply num_ltb_Fin_false. lra. }
  assert (P : forall days, 0 < days <= 30 ->
                           num_ltb (toFixed 2 (Fin a)) (Fin (inject_Z days)) = false).
  { intros days Hd. destruct (num_ltb _ _) eqn:E; [|reflexivity].
    apply rounded_age_lt in E; [|lia].
    assert (inject_Z days <= inject_Z 30)%Q by (rewrite <- Zle_Qle; lia).
    change (inject_Z 30) with 30%Q in *. lra. }
  assert (P3 := P 3). assert (P14 := P 14). assert (P30 := P 30).
  change (inject_Z 3) with 3%Q in P3. change (inject_Z 14) with 14%Q in P14.
  change (inject_Z 30) with 30%Q in P30.
  unfold tleAgeLabelOf, Panel.derive.
  rewrite !V by discriminate.
  cbn [Panel.label Panel.status].
  rewrite P3, P14, P30 by lia.
  repeat split.
  unfold Panel.barWidth. cbn [Panel.pct].
  assert (Hr : exists r, toFixed 2 (Fin a) = Fin r /\ (30 <= r)%Q).
  { unfold toFixed. eexists. split; [reflexivity|].
    apply num_ltb_Fin_false. apply P30. lia. }
  destruct Hr as (r & -> & Hr30).
  unfold num_div, num_min, num_max.
  assert (E1 : Qle_bool 1 (r / 30) = true).
  { apply Qle_bool_iff. assert (Hx : (r == 30 * (r / 30))%Q) by field.
    set (x := (r / 30)%Q) in *. lra. }
  rewrite E1. reflexivity.
Qed.

End Settling.

(** ** The warning after a deselection *)

Section Warning.
Context {lib : SatelliteJs}.

(** X22. Deselecting does not take the out-of-range warning down: clearing
    the selection leaves the flag and the warning as they were, and it is
    the next refresh tick, finding nothing selected, that lowers the flag and
    clears the warning, without touching the (absent) selection or its path. *)
Theorem warning_outlives_selection (nowMs : Z) (st : State) (v : Viewer)
    (Hviewer : viewer st = Some v)
    (Hdue : 1000 < nowMs - lastTickTime (clearSelection st)) :
  let idle := clearSelection st in
  tleWarning idle = tleWarning st
  /\ isTleOutOfRange idle = isTleOutOfRange st
  /\ isTleOutOfRange (onTick nowMs idle) = false
  /\ tleWarning (onTick nowMs idle) = ""
  /\ selectedSat (onTick nowMs idle) = None
  /\ selectedSatPath (onTick nowMs idle) = None.
Proof.
  intro idle. subst idle.
  assert (Hv : viewer (clearSelection st) = Some (set_trackedEntity None v)).
  { destruct (clearSelection_spec st) as (_ & _ & _ & _ & _ & H & _).
    now rewrite H, Hviewer. }
  destruct (onTick_refresh nowMs (clearSelection st) _ Hv Hdue)
    as (H1 & H2 & _ & H4 & _ & H6).
  rewrite H1, H2, H4, H6. clear H1 H2 H4 H6 Hv Hdue.
  unfold refreshSelection, clearSelection, clearWarning, dropPath, with_viewer.
  destruct st as [? ? ? ? ? flag warning ? vw ? ? ? ? ? ? ? ? ?]; simpl in *. subst vw.
  simpl.
  destruct flag; simpl; destruct (JsString.isEmpty warning) eqn:Hw; simpl;
    try apply isEmpty_true in Hw; subst; repeat split.
Qed.

End Warning.

(** ** The further properties at the concrete runs *)

Lemma parseTLE_fields_trimmed_witness :
  JsString.isEmpty (name Loader.issRecord) = false
  /\ JsString.trim (line1 Loader.issRecord) = line1 Loader.issRecord.
Proof.
  assert (Hin : In Loader.issRecord (Loader.parseTLE Loader.BACKUP_TLE)).
  { rewrite parse_backup. now left. }
  destruct (parseTLE_fields_trimmed Loader.BACKUP_TLE Loader.issRecord Hin)
    as (_ & _ & _ & Hname & _ & _ & _ & Hline & _).
  split; [exact Hname | exact Hline].
Defined.

(** The built-in catalog: its one record is never propagated. *)
Lemma first_record_is_never_propagated_witness :
  getSatrec Loader.issRecord = None
  /\ getSimpleCallback Loader.issRecord = None
  /\ forall t, isOutOfRange t Loader.issRecord = false.
Proof.
  destruct (first_record_is_never_propagated Loader.BACKUP_TLE Loader.issRecord []
              parse_backup)
    as (_ & Hrec & _ & Hrange & Hmarker & _).
  split; [exact Hrec|]. split; [exact Hmarker | exact Hrange].
Defined.

Lemma parsed_catalog_lookup_witness :
  selectedSat (selectSatelliteById 3 (Fixture.day 10) Fixture.loaded) = Some Fixture.alpha.
Proof.
  refine (proj2 (parsed_catalog_lookup Fixture.blob (Fixture.day 10) Fixture.loaded
                   Fixture.alpha _ _)).
  - run_it.
  - vm_compute. right. now left.
Defined.

Lemma togglePlay_twice_witness :
  clockOf (togglePlay Fixture.loaded) = Some (mkClock (Fixture.day 10) 10 false)
  /\ togglePlay (togglePlay Fixture.loaded) = Fixture.loaded.
Proof.
  destruct (togglePlay_twice Fixture.loaded (Fixture.viewerAt (Fixture.day 10) 10))
    as (H1 & _ & _ & _ & H5); [run_it|].
  split; [exact H1|]. apply H5. run_it.
Defined.

(** With [alpha] selected (epoch day 3), day 50 is asked for on day 10: day 33
    is installed and the path sampled around it. *)
Lemma date_change_resets_validity_witness :
  isTleOutOfRange (handleDateChange (Fixture.day 50) (Fixture.day 10) Fixture.trackingAlpha)
  = false
  /\ selectedSatPath (handleDateChange (Fixture.day 50) (Fixture.day 10) Fixture.trackingAlpha)
     = Some (historySamples (Fixture.epochDay 3) (Fixture.day 33)).
Proof.
  destruct (date_change_resets_validity (Fixture.day 50) (Fixture.day 10)
              Fixture.trackingAlpha (Fixture.viewerAt (Fixture.day 10) 10))
    as (Hflag & _ & _ & _ & _ & Hpath & _); [run_it|].
  split; [exact Hflag|].
  destruct (Hpath Fixture.alpha (Fixture.epochDay 3)) as [Hp _]; [run_it | run_it|].
  exact Hp.
Defined.

Lemma clampDate_is_min_witness :
  clampDate (Fixture.day 2) (Fixture.day 10) Fixture.trackingAlpha
  <= clampDate (Fixture.day 50) (Fixture.day 10) Fixture.trackingAlpha.
Proof.
  destruct (clampDate_is_min (Fixture.day 2) (Fixture.day 50) (Fixture.day 10)
              Fixture.trackingAlpha) as (_ & _ & H); [discriminate | exact H].
Defined.

Lemma tick_cadence_witness :
  onTick 5500 (onTick 5000 Fixture.scanning) = onTick 5000 Fixture.scanning.
Proof.
  refine (proj2 (proj2 (tick_cadence 5000 5500 Fixture.scanning
                          (Fixture.viewerAt (Fixture.day 10) 10) _ _ _ _))).
  - run_it.
  - reflexivity.
  - right. reflexivity.
  - discriminate.
Defined.

Lemma path_and_ref_agree_witness :
  selectedSatPath Fixture.backInRange = selectedSatPathRef Fixture.backInRange.
Proof.
  exact (proj1 (path_and_ref_agree Fixture.backInRange (reachable_run _ _))).
Defined.

Lemma idle_is_clean_witness :
  isTracked Fixture.scanning = false /\ renderSelected Fixture.scanning = NothingDrawn.
Proof.
  destruct (idle_is_clean Fixture.scanning (reachable_run _ _))
    as (_ & _ & Htracked & _ & _ & Hdrawn); [run_it|].
  split; [exact Htracked | exact Hdrawn].
Defined.

Lemma intercept_rows_are_selectable_witness :
  exists sat,
    selectedSat (selectSatelliteById 3 (Fixture.day 10) (onTick 5000 Fixture.scanning))
    = Some sat
    /\ id sat = 3%nat.
Proof.
  destruct (intercept_rows_are_selectable 5000 (Fixture.day 10) Fixture.scanning
              (Fixture.viewerAt (Fixture.day 10) 10) Fixture.target
              (mkIntercept "ALPHA" 3 100))
    as (sat & Hsel & Hid & _).
  - run_it.
  - run_it.
  - reflexivity.
  - vm_compute. now left.
  - exists sat. split; [exact Hsel | exact Hid].
Defined.

(** [alpha] is followed, [bravo] is chosen: the camera follows [bravo]. *)
Lemma follow_survives_selection_witness :
  option_map trackedEntity
    (viewer (trackingEffect (selectSatelliteById 6 (Fixture.day 10) Fixture.following)))
  = Some (Some SelectedSatComplex).
Proof.
  destruct (follow_survives_selection 6 (Fixture.day 10) Fixture.following
              Fixture.bravo (Fixture.viewerAt (Fixture.day 10) 10) (Fixture.epochDay 4))
    as (_ & _ & _ & H).
  - run_it.
  - run_it.
  - run_it.
  - vm_compute. right. right. now left.
  - run_it.
  - exact H.
Defined.


Lemma paths_meet_the_marker_witness :
  exists satrec future,
    getSatrec Fixture.alpha = Some satrec
    /\ getDynamicFuturePath Fixture.alpha = Some future
    /\ hd_error (future (Fixture.day 10)) = Some (Fixture.metres (Fixture.day 7))
    /\ In (Fixture.day 10, Fixture.metres (Fixture.day 7))
          (historySamples satrec (Fixture.day 10)).
Proof.
  apply (paths_meet_the_marker Fixture.alpha (Fixture.day 10)
           (Fixture.metres (Fixture.day 7)) (positionAt (Fixture.epochDay 3)));
    reflexivity.
Defined.

(** A query of blanks shows the whole catalog. *)
Lemma search_ignores_case_and_padding_witness :
  filteredSatellites
    (set_filters (mkFilters "   " false (0, 40000)%Q (0, 40000)%Q) (Fixture.day 10)
                 Fixture.searching)
  = satellites Fixture.searching.
Proof.
  destruct (search_ignores_case_and_padding Fixture.searching "   ") as (_ & _ & _ & H).
  apply H. reflexivity.
Defined.

Lemma scan_replaces_intercepts_witness :
  intercepts (onTick 5000 (set_intercepts [mkIntercept "OLD ROW" 6 1] Fixture.scanning))
  = intercepts (onTick 5000 Fixture.scanning).
Proof.
  refine (proj1 (scan_replaces_intercepts 5000 Fixture.scanning
                   (Fixture.viewerAt (Fixture.day 10) 10) Fixture.target
                   [mkIntercept "OLD ROW" 6 1] _ _ _)).
  - run_it.
  - run_it.
  - reflexivity.
Defined.

Lemma out_of_range_is_very_old_witness :
  tleAgeLabelOf (tleAgeDaysAt (Fixture.day 34) (Fixture.epochDay 3)) = VERY_OLD
  /\ Panel.status (Panel.derive (Some (toFixed 2 (tleAgeDaysAt (Fixture.day 34)
                                                    (Fixture.epochDay 3)))))
     = Panel.DEGRADED_ORBIT.
Proof.
  destruct (out_of_range_is_very_old (Fixture.day 34) Fixture.alpha (Fixture.epochDay 3))
    as (H1 & _ & H3 & _); [run_it | run_it |].
  split; [exact H1 | exact H3].
Defined.

(** [alpha] was selected out of range, then the background is clicked. *)
Lemma warning_outlives_selection_witness :
  tleWarning (clearSelection Fixture.selectedLate) = outOfRangeWarning
  /\ tleWarning (onTick 5000 (clearSelection Fixture.selectedLate)) = "".
Proof.
  destruct (warning_outlives_selection 5000 Fixture.selectedLate
              (Fixture.viewerAt (Fixture.day 40) 10))
    as (H1 & _ & _ & H4 & _); [run_it | reflexivity |].
  split; [rewrite H1; run_it | exact H4].
Defined.
